(** * A shallow embedding of the URL shortener of [App.jsx]

    The development follows the source file top-down: the storage adapter
    ([getStoredUrls], [setStoredUrls]), the redirect view
    ([RedirectShortUrl]) and the submission view ([MainApp]) with its
    validator, code generator and [handleShorten].

    JavaScript strings are modelled as [string], the error bag (an object
    used as a dictionary) as a [gmap string string], arrays as lists,
    exceptions and the unbounded [do ... while] loop through the [outcome]
    type below. *)

From Stdlib Require Import ZArith String Ascii List Bool Lia QArith.
From stdpp Require Import base option list strings gmap pretty.

Local Open Scope string_scope.
Local Open Scope Z_scope.
#[local] Set Warnings "-register-all".

(** ** Outcomes of a JavaScript computation *)

Inductive exn := SyntaxError | RangeError.

(** [Pending] is the outcome of a loop that is still running when the
    supplied random draws are used up. *)
Inductive outcome (A : Type) : Type :=
  | Returns (a : A)
  | Throws (e : exn)
  | Pending.
Arguments Returns {A} a.
Arguments Throws {A} e.
Arguments Pending {A}.

Definition obind {A B} (c : outcome A) (k : A -> outcome B) : outcome B :=
  match c with
  | Returns a => k a
  | Throws e => Throws e
  | Pending => Pending
  end.

(** [try { body } catch { handler }] *)
Definition try_catch {A} (body : outcome A) (handler : outcome A) : outcome A :=
  match body with
  | Throws _ => handler
  | r => r
  end.

(** Computations that consume draws of [Math.random()]; a draw is given by
    its base-36 text, the value of [Math.random().toString(36)]. *)
Definition M (A : Type) : Type := list string -> outcome (A * list string).

Definition ret {A} (a : A) : M A := fun draws => Returns (a, draws).

Definition bind {A B} (c : M A) (k : A -> M B) : M B :=
  fun draws => obind (c draws) (fun '(a, rest) => k a rest).

Definition lift {A} (c : outcome A) : M A :=
  fun draws => obind c (fun a => Returns (a, draws)).

Notation "'let!' x ':=' c 'in' k" := (bind c (fun x => k))
  (at level 10, x name, c at level 100, k at level 200).

(** [xs.map(f)] for a callback with effects, left to right. *)
Fixpoint mapM {A B} (f : A -> M B) (xs : list A) : M (list B) :=
  match xs with
  | [] => ret []
  | x :: xs' =>
      let! y := f x in
      let! ys := mapM f xs' in
      ret (y :: ys)
  end.

(** ** Numbers *)

(** A JavaScript number is a double. The numbers of this program have
    integer values and are kept in [Z]; [round_to_double z] is the double
    nearest to the integer [z], a tie going to the even mantissa. It is [z]
    itself up to 2^53 in size; beyond, a double has [2 ^ (Z.log2 a - 52)]
    between neighbours. Sizes from 2^1024 on, which a double holds as
    [Infinity], are not told apart from large finite values. *)
Definition round_to_double (z : Z) : Z :=
  let a := Z.abs z in
  if a <=? 2 ^ 53 then z
  else
    let ulp := 2 ^ (Z.log2 a - 52) in
    let q := a / ulp in
    let r := a mod ulp in
    let q' :=
      if 2 * r <? ulp then q
      else if ulp <? 2 * r then q + 1
      else if Z.even q then q else q + 1 in
    Z.sgn z * (q' * ulp).

(** [x + y] on doubles with integer values. *)
Definition js_add (x y : Z) : Z := round_to_double (x + y).

(** ** Strings, regular expressions and numbers *)

(** A string is truthy when it is not empty. *)
Definition truthy (s : string) : bool :=
  match s with
  | EmptyString => false
  | String _ _ => true
  end.

Fixpoint every (p : ascii -> bool) (s : string) : bool :=
  match s with
  | EmptyString => true
  | String c s' => p c && every p s'
  end.

Definition between (lo hi c : ascii) : bool :=
  ((nat_of_ascii lo <=? nat_of_ascii c) && (nat_of_ascii c <=? nat_of_ascii hi))%nat.

Definition is_digit (c : ascii) : bool := between "0" "9" c.
Definition is_lower (c : ascii) : bool := between "a" "z" c.
Definition is_upper (c : ascii) : bool := between "A" "Z" c.

(** The character class [[a-zA-Z0-9]]. *)
Definition is_alnum (c : ascii) : bool := is_lower c || is_upper c || is_digit c.

(** [/^\d+$/.test(s)] *)
Definition test_digits (s : string) : bool := truthy s && every is_digit s.

Definition digit_value (c : ascii) : Z := Z.of_nat (nat_of_ascii c) - 48.

Fixpoint parseInt_from (acc : Z) (s : string) : Z :=
  match s with
  | EmptyString => acc
  | String c s' => parseInt_from (10 * acc + digit_value c) s'
  end.

(** [parseInt(s)] on the strings the program passes to it: both call sites
    are guarded by [/^\d+$/], so [s] is a non-empty run of decimal digits,
    and the result is the double nearest to the number it spells. *)
Definition parseInt (s : string) : Z := round_to_double (parseInt_from 0 s).

(** ** Data model *)

Record LinkEntry := {
  originalUrl : string;
  shortcode : string;
  shortUrl : string;
  createdAt : string;
  expiresAt : string;
  clicks : Z
}.

Module Input.
Record t := { url : string; validity : string; shortcode : string }.
Definition blank : t := {| url := ""; validity := ""; shortcode := "" |}.
End Input.

Definition DEFAULT_VALIDITY : Z := 30.
Definition STORAGE_KEY : string := "shortenedUrls".

(** ** Persistent store *)

(** Values that [JSON.parse] can return. *)
Inductive JSON :=
  | JNull
  | JBool (b : bool)
  | JNum (q : Q)
  | JStr (s : string)
  | JArr (items : list JSON)
  | JObj (fields : list (string * JSON)).

(** Truthiness, as used by [||]. *)
Definition json_truthy (v : JSON) : bool :=
  match v with
  | JNull => false
  | JBool b => b
  | JNum q => negb (Qeq_bool q 0)
  | JStr s => truthy s
  | JArr _ | JObj _ => true
  end.

(** The record kept under [STORAGE_KEY] in [localStorage], classified by
    what [JSON.parse] makes of its text: no record at all, a text that is
    not JSON, or a text that parses to [v]. *)
Inductive record :=
  | Absent
  | Garbage (raw : string)
  | Json (v : JSON).

(** [JSON.parse(localStorage.getItem(STORAGE_KEY))]: [getItem] yields [null]
    for a missing record, which [JSON.parse] reads as the text [null]. *)
Definition JSON_parse_item (r : record) : outcome JSON :=
  match r with
  | Absent => Returns JNull
  | Garbage _ => Throws SyntaxError
  | Json v => Returns v
  end.

Definition getStoredUrls (ls : record) : outcome JSON :=
  try_catch
    (obind (JSON_parse_item ls)
           (fun v => Returns (if json_truthy v then v else JArr [])))
    (Returns (JArr [])).

Definition entry_to_json (e : LinkEntry) : JSON :=
  JObj [ ("originalUrl", JStr (originalUrl e));
         ("shortcode", JStr (shortcode e));
         ("shortUrl", JStr (shortUrl e));
         ("createdAt", JStr (createdAt e));
         ("expiresAt", JStr (expiresAt e));
         ("clicks", JNum (inject_Z (clicks e))) ].

Definition entries_to_json (urls : list LinkEntry) : JSON :=
  JArr (map entry_to_json urls).

(** [localStorage.setItem(STORAGE_KEY, JSON.stringify(urls))]: the record
    now holds a text that parses back to the array [urls]. *)
Definition setStoredUrls (urls : list LinkEntry) : record :=
  Json (entries_to_json urls).

(** The entries that the views find in a loaded value: they treat it as an
    array and read the properties [originalUrl], [shortcode], [shortUrl],
    [createdAt], [expiresAt] and [clicks] of its items. [None] when the
    value is not an array of objects with these properties as strings and an
    integer. *)
Fixpoint json_get (name : string) (fields : list (string * JSON)) : option JSON :=
  match fields with
  | [] => None
  | (k, v) :: rest => if String.eqb k name then Some v else json_get name rest
  end.

Definition json_string (v : option JSON) : option string :=
  match v with
  | Some (JStr s) => Some s
  | _ => None
  end.

Definition json_integer (v : option JSON) : option Z :=
  match v with
  | Some (JNum q) => if (Qden q =? 1)%positive then Some (Qnum q) else None
  | _ => None
  end.

Definition entry_of_json (v : JSON) : option LinkEntry :=
  match v with
  | JObj fields =>
      match json_string (json_get "originalUrl" fields),
            json_string (json_get "shortcode" fields),
            json_string (json_get "shortUrl" fields),
            json_string (json_get "createdAt" fields),
            json_string (json_get "expiresAt" fields),
            json_integer (json_get "clicks" fields) with
      | Some o, Some c, Some u, Some t, Some x, Some n =>
          Some {| originalUrl := o; shortcode := c; shortUrl := u;
                  createdAt := t; expiresAt := x; clicks := n |}
      | _, _, _, _, _, _ => None
      end
  | _ => None
  end.

Fixpoint entries_of_items (items : list JSON) : option (list LinkEntry) :=
  match items with
  | [] => Some []
  | v :: rest =>
      match entry_of_json v, entries_of_items rest with
      | Some e, Some es => Some (e :: es)
      | _, _ => None
      end
  end.

Definition entries_of_json (v : JSON) : option (list LinkEntry) :=
  match v with
  | JArr items => entries_of_items items
  | _ => None
  end.

(** The entries in the store: what a view that loads the record now gets. *)
Definition stored_entries (ls : record) : option (list LinkEntry) :=
  match getStoredUrls ls with
  | Returns v => entries_of_json v
  | _ => None
  end.

(** ** The redirect view *)

Inductive action :=
  | SetHref (target : string)                 (* window.location.href = target *)
  | NavigateAfter (ms : Z) (path : string).   (* setTimeout(() => navigate(path), ms) *)

Inductive notice := Redirecting | ShortUrlNotFound.

Definition has_code (code : string) (item : LinkEntry) : bool :=
  String.eqb (shortcode item) code.

(** [url.clicks || 0] *)
Definition clicks_or_zero (n : Z) : Z := if n =? 0 then 0 else n.

(** [{ ...url, clicks: (url.clicks || 0) + 1 }] *)
Definition click (url : LinkEntry) : LinkEntry :=
  {| originalUrl := originalUrl url;
     shortcode := shortcode url;
     shortUrl := shortUrl url;
     createdAt := createdAt url;
     expiresAt := expiresAt url;
     clicks := js_add (clicks_or_zero (clicks url)) 1 |}.

Definition updatedUrls (shortenedUrls : list LinkEntry) (code : string) : list LinkEntry :=
  map (fun url => if has_code code url then click url else url) shortenedUrls.

(** The effect of [RedirectShortUrl]: the record after it ran, and what it
    asked the browser to do. *)
Definition RedirectShortUrl (shortenedUrls : list LinkEntry) (code : string)
    (ls : record) : record * action :=
  match find (has_code code) shortenedUrls with
  | Some found => (setStoredUrls (updatedUrls shortenedUrls code), SetHref (originalUrl found))
  | None => (ls, NavigateAfter 3000 "/")
  end.

(** What the component renders. *)
Definition RedirectShortUrl_view (shortenedUrls : list LinkEntry) (code : string) : notice :=
  if existsb (has_code code) shortenedUrls then Redirecting else ShortUrlNotFound.

(** ** The submission view *)

(** The state of [MainApp]: its four [useState] cells. *)
Record MainApp := {
  inputs : list Input.t;
  shortenedUrls : list LinkEntry;
  errors : gmap string string;
  successMessage : string
}.

(** The submission view together with the record in [localStorage]. *)
Record World := {
  ui : MainApp;
  localStorage : record
}.

(** [xs.some((x, idx) => p(x, idx))], the index starting at [i]. *)
Fixpoint some_from {A} (p : A -> nat -> bool) (i : nat) (xs : list A) : bool :=
  match xs with
  | [] => false
  | x :: xs' => p x i || some_from p (S i) xs'
  end.

(** [xs.forEach((x, idx) => body)] over an accumulator, the index starting
    at [i]. *)
Fixpoint forEach_from {A B} (body : A -> nat -> B -> B) (i : nat) (xs : list A) (acc : B) : B :=
  match xs with
  | [] => acc
  | x :: xs' => forEach_from body (S i) xs' (body x i acc)
  end.

(** [currentIdx] defaults to [-1]. *)
Definition isShortcodeUnique (st : MainApp) (code : string) (currentIdx : Z) : bool :=
  negb (existsb (has_code code) (shortenedUrls st)) &&
  negb (some_from
          (fun input idx =>
             negb (Z.of_nat idx =? currentIdx) && String.eqb (Input.shortcode input) code)
          0%nat (inputs st)).

(** [/^[a-zA-Z0-9]{3,10}$/.test(code)] *)
Definition isValidShortcode (code : string) : bool :=
  every is_alnum code &&
  ((3 <=? String.length code) && (String.length code <=? 10))%nat.

(** The property names [`url${idx}`], [`validity${idx}`], [`shortcode${idx}`]. *)
Definition key (field : string) (idx : nat) : string := field +:+ pretty idx.

(** [Math.random().toString(36).substring(2, 8)], where [rendering] is the
    text [Math.random().toString(36)]. *)
Definition candidate (rendering : string) : string := substring 2 6 rendering.

(** The [do ... while] loop of [generateShortCode]; each iteration takes the
    next draw. *)
Fixpoint generateShortCode (st : MainApp) (draws : list string) : outcome (string * list string) :=
  match draws with
  | [] => Pending
  | rendering :: rest =>
      let code := candidate rendering in
      if negb (isShortcodeUnique st code (-1)) then generateShortCode st rest
      else Returns (code, rest)
  end.

Section Browser.

(** Whether [new URL(url)] succeeds. *)
Variable URL_parses : string -> bool.

(** [window.location.origin] *)
Variable origin : string.

(** The ISO text of a time value in the range of [Date]. *)
Variable iso : Z -> string.

Definition isValidUrl (url : string) : bool :=
  match try_catch (if URL_parses url then Returns true else Throws SyntaxError)
                  (Returns false) with
  | Returns b => b
  | _ => false
  end.

(** The body of the [forEach] in [validateInputs]. *)
Definition validate_row (st : MainApp) (input : Input.t) (idx : nat)
    (newErrors : gmap string string) : gmap string string :=
  if truthy (Input.url input) then
    let e1 :=
      if negb (isValidUrl (Input.url input))
      then <[key "url" idx := "Invalid URL"]> newErrors
      else newErrors in
    let e2 :=
      if truthy (Input.validity input) &&
         (negb (test_digits (Input.validity input)) || (parseInt (Input.validity input) <=? 0))
      then <[key "validity" idx := "Must be a positive number"]> e1
      else e1 in
    if truthy (Input.shortcode input) then
      if negb (isValidShortcode (Input.shortcode input))
      then <[key "shortcode" idx := "3-10 alphanumeric chars"]> e2
      else if negb (isShortcodeUnique st (Input.shortcode input) (Z.of_nat idx))
      then <[key "shortcode" idx := "This code is already taken"]> e2
      else e2
    else e2
  else newErrors.

(** The error bag that [validateInputs] builds and stores with [setErrors];
    its result is [Object.keys(newErrors).length === 0]. *)
Definition newErrors (st : MainApp) : gmap string string :=
  forEach_from (validate_row st) 0%nat (inputs st) ∅.

Definition validateInputs (st : MainApp) : MainApp * bool :=
  ({| inputs := inputs st;
      shortenedUrls := shortenedUrls st;
      errors := newErrors st;
      successMessage := successMessage st |},
   bool_decide (newErrors st = ∅)).

(** [new Date(t).toISOString()]: a time value beyond 8.64e15 ms makes an
    invalid date, on which [toISOString] throws. *)
Definition toISOString (t : Z) : outcome string :=
  if Z.abs t <=? 8640000000000000 then Returns (iso t) else Throws RangeError.

(** The callback of the [map] in [handleShorten]. The product and the sum
    that give the expiry are taken in [Z]; as doubles they have the same
    values whenever both dates are in the range of [Date], and are out of
    range together otherwise, for a clock reading [now] after 1970. *)
Definition shorten_row (st : MainApp) (now : Z) (input : Input.t) : M LinkEntry :=
  let! code :=
    (if truthy (Input.shortcode input) then ret (Input.shortcode input)
     else generateShortCode st) in
  let validity :=
    if truthy (Input.validity input) then parseInt (Input.validity input)
    else DEFAULT_VALIDITY in
  let expiry := now + validity * 60000 in
  let! created := lift (toISOString now) in
  let! expires := lift (toISOString expiry) in
  ret {| originalUrl := Input.url input;
         shortcode := code;
         shortUrl := origin +:+ "/" +:+ code;
         createdAt := created;
         expiresAt := expires;
         clicks := 0 |}.

Definition newShortened (st : MainApp) (now : Z) : M (list LinkEntry) :=
  mapM (shorten_row st now) (filter (fun input => truthy (Input.url input)) (inputs st)).

(** [handleShorten], run at clock reading [now] (the time value of
    [new Date()], in milliseconds since 1970). *)
Definition handleShorten (now : Z) (w : World) : M World :=
  let (st, ok) := validateInputs (ui w) in
  if negb ok then
    ret {| ui := {| inputs := inputs st;
                     shortenedUrls := shortenedUrls st;
                     errors := errors st;
                     successMessage := "" |};
           localStorage := localStorage w |}
  else
    let! created := newShortened (ui w) now in
    if (0 <? Z.of_nat (length created)) then
      let updated := (shortenedUrls (ui w) ++ created)%list in
      ret {| ui := {| inputs := replicate 5 Input.blank;
                       shortenedUrls := updated;
                       errors := ∅;
                       successMessage :=
                         pretty (length created) +:+ " URL(s) successfully shortened!" |};
             localStorage := setStoredUrls updated |}
    else
      ret {| ui := st; localStorage := localStorage w |}.

(** ** Names used in the statements *)

Inductive field := Furl | Fvalidity | Fshortcode.

#[global] Instance field_eq_dec : EqDecision field.
Proof. solve_decision. Defined.

Definition field_name (f : field) : string :=
  match f with
  | Furl => "url"
  | Fvalidity => "validity"
  | Fshortcode => "shortcode"
  end.

(** The message, if any, that one row leaves under the key of field [f]. *)
Definition row_error (st : MainApp) (f : field) (input : Input.t) (idx : nat) : option string :=
  if truthy (Input.url input) then
    match f with
    | Furl =>
        if isValidUrl (Input.url input) then None else Some "Invalid URL"
    | Fvalidity =>
        if truthy (Input.validity input) &&
           (negb (test_digits (Input.validity input)) || (parseInt (Input.validity input) <=? 0))
        then Some "Must be a positive number" else None
    | Fshortcode =>
        if truthy (Input.shortcode input) then
          if isValidShortcode (Input.shortcode input) then
            if isShortcodeUnique st (Input.shortcode input) (Z.of_nat idx) then None
            else Some "This code is already taken"
          else Some "3-10 alphanumeric chars"
        else None
    end
  else None.

(** The pattern [^[A-Za-z0-9]{3,10}$], character by character. *)
Definition alphanumeric (c : ascii) : Prop :=
  let n := nat_of_ascii c in
  (65 <= n <= 90 \/ 97 <= n <= 122 \/ 48 <= n <= 57)%nat.

Definition matches_shortcode_pattern (code : string) : Prop :=
  (3 <= String.length code <= 10)%nat /\
  Forall alphanumeric (list_ascii_of_string code).

(** What [handleShorten] leaves behind when validation fails. *)
Definition rejected (w : World) : World :=
  {| ui := {| inputs := inputs (ui w);
              shortenedUrls := shortenedUrls (ui w);
              errors := newErrors (ui w);
              successMessage := "" |};
     localStorage := localStorage w |}.

(** The validity, in minutes, that [handleShorten] gives a row. *)
Definition minutes (input : Input.t) : Z :=
  if truthy (Input.validity input) then parseInt (Input.validity input)
  else DEFAULT_VALIDITY.

Definition with_clicks (e : LinkEntry) (n : Z) : LinkEntry :=
  {| originalUrl := originalUrl e; shortcode := shortcode e; shortUrl := shortUrl e;
     createdAt := createdAt e; expiresAt := expiresAt e; clicks := n |}.

Definition with_expiresAt (e : LinkEntry) (x : string) : LinkEntry :=
  {| originalUrl := originalUrl e; shortcode := shortcode e; shortUrl := shortUrl e;
     createdAt := createdAt e; expiresAt := x; clicks := clicks e |}.

(** [o] if it holds a message, else [d]. *)
Definition or_else {A} (o : option A) (d : option A) : option A :=
  match o with
  | Some a => Some a
  | None => d
  end.

(** One row's message for field [f], written into the bag. *)
Definition put (st : MainApp) (input : Input.t) (idx : nat) (f : field)
    (m : gmap string string) : gmap string string :=
  match row_error st f input idx with
  | Some msg => <[key (field_name f) idx := msg]> m
  | None => m
  end.

Definition is_base36 (c : ascii) : bool := is_digit c || is_lower c.

(** The text of a number in [0, 1) written in base 36: [0.] and digits. *)
Definition base36_fraction (rendering : string) : Prop :=
  exists digits, rendering = "0." +:+ digits /\ every is_base36 digits = true.

(** What is known of the entry [e] that [handleShorten] builds from a row:
    the row's URL, and the row's code or else a code that no entry and no
    row carries. *)
Definition built_from (st : MainApp) (input : Input.t) (e : LinkEntry) : Prop :=
  originalUrl e = Input.url input /\
  if truthy (Input.shortcode input)
  then shortcode e = Input.shortcode input
  else (forall x, x ∈ shortenedUrls st -> shortcode x <> shortcode e) /\
       (forall k r, inputs st !! k = Some r -> Input.shortcode r <> shortcode e).

(** Whether the creation and expiry times of a row are in the range of
    [Date]. *)
Definition in_range (now : Z) (input : Input.t) : bool :=
  (Z.abs now <=? 8640000000000000) &&
  (Z.abs (now + minutes input * 60000) <=? 8640000000000000).

(** The entry of a row that brings its own shortcode. *)
Definition entry_of (now : Z) (input : Input.t) : LinkEntry :=
  {| originalUrl := Input.url input;
     shortcode := Input.shortcode input;
     shortUrl := origin +:+ "/" +:+ Input.shortcode input;
     createdAt := iso now;
     expiresAt := iso (now + minutes input * 60000);
     clicks := 0 |}.

(** ** The form *)

(** [{ ...input, [field]: value }], for the three properties a row has; a
    property of another name would leave these three as they are. *)
Definition set_field (input : Input.t) (field value : string) : Input.t :=
  if String.eqb field "url" then
    {| Input.url := value;
       Input.validity := Input.validity input;
       Input.shortcode := Input.shortcode input |}
  else if String.eqb field "validity" then
    {| Input.url := Input.url input;
       Input.validity := value;
       Input.shortcode := Input.shortcode input |}
  else if String.eqb field "shortcode" then
    {| Input.url := Input.url input;
       Input.validity := Input.validity input;
       Input.shortcode := value |}
  else input.

(** [handleInputChange(index, field, value)], for the index of a row. The
    handlers are rendered per row ([inputs.map((input, idx) => ...)]), so no
    other index reaches it; an index past the rows, where the source would
    grow the array over a gap, is left out ([None]). *)
Definition handleInputChange (index : nat) (field value : string) (st : MainApp)
    : option MainApp :=
  match inputs st !! index with
  | Some input =>
      Some {| inputs := <[index := set_field input field value]> (inputs st);
              shortenedUrls := shortenedUrls st;
              errors := errors st;
              successMessage := successMessage st |}
  | None => None
  end.

(** [!!errors[`${field}${idx}`]], the [error] property of a text field. *)
Definition field_error (st : MainApp) (field : string) (idx : nat) : bool :=
  match errors st !! key field idx with
  | Some msg => truthy msg
  | None => false
  end.

(** [errors[`${field}${idx}`] || fallback], the helper text of the validity
    and shortcode fields. *)
Definition helperText (st : MainApp) (field : string) (idx : nat) (fallback : string)
    : string :=
  match errors st !! key field idx with
  | Some msg => if truthy msg then msg else fallback
  | None => fallback
  end.

Fixpoint drop_chars (n : nat) (s : string) : string :=
  match n, s with
  | O, _ => s
  | S n', String _ s' => drop_chars n' s'
  | S _, EmptyString => EmptyString
  end.

(** [item.shortUrl.replace(/^https?:\/\//, '')], the text of a link in the
    list. *)
Definition link_text (item : LinkEntry) : string :=
  let s := shortUrl item in
  if String.prefix "http://" s then drop_chars 7 s
  else if String.prefix "https://" s then drop_chars 8 s
  else s.

Definition is_zero (c : ascii) : bool := Ascii.eqb c "0".

(** ** Sample data for the examples *)

(** A stand-in for the URL parser: absolute [http] and [https] URLs. *)
Definition sample_URL_parses (url : string) : bool :=
  String.prefix "http://" url || String.prefix "https://" url.

Definition sample_origin : string := "http://localhost:3000".

(** A stand-in for the ISO text of a time value: its decimal digits. *)
Definition sample_iso (t : Z) : string := pretty t.

Definition row (url validity shortcode : string) : Input.t :=
  {| Input.url := url; Input.validity := validity; Input.shortcode := shortcode |}.

(** A submission view freshly mounted over the record it was loaded from. *)
Definition mounted (rows : list Input.t) (stored : list LinkEntry) : World :=
  {| ui := {| inputs := rows; shortenedUrls := stored; errors := ∅; successMessage := "" |};
     localStorage := setStoredUrls stored |}.

Definition docs_entry : LinkEntry :=
  {| originalUrl := "https://example.com/docs";
     shortcode := "docs1";
     shortUrl := "http://localhost:3000/docs1";
     createdAt := "1000";
     expiresAt := "1801000";
     clicks := 4 |}.

Definition blog_entry : LinkEntry :=
  {| originalUrl := "https://example.com/blog";
     shortcode := "blog7";
     shortUrl := "http://localhost:3000/blog7";
     createdAt := "2000";
     expiresAt := "62000";
     clicks := 0 |}.

(** [docs_entry] after five more visits. *)
Definition docs_visited : LinkEntry := with_clicks docs_entry 9.

(** An entry whose count has reached 2^53. *)
Definition worn_entry : LinkEntry :=
  {| originalUrl := "https://example.com/home";
     shortcode := "home1";
     shortUrl := "http://localhost:3000/home1";
     createdAt := "1000";
     expiresAt := "1801000";
     clicks := 9007199254740992 |}.

(** A submission view that loaded the store when it held [docs_entry]
    alone, while the store has since received five visits of that link and a
    second entry from another tab. *)
Definition stale_view : World :=
  {| ui := {| inputs := [row "https://example.com" "" "mine1"];
              shortenedUrls := [docs_entry];
              errors := ∅;
              successMessage := "" |};
     localStorage := setStoredUrls [docs_visited; blog_entry] |}.

(** ** Property keys *)

Lemma append_cancel_l (p x y : string) : p +:+ x = p +:+ y -> x = y.
Proof.
  induction p as [|c p IH]; simpl; [done|].
  intros H; injection H as H; auto.
Qed.

Lemma key_inj f g i j :
  key (field_name f) i = key (field_name g) j -> f = g /\ i = j.
Proof.
  unfold key.
  destruct f, g; simpl; intros H; try discriminate H; (split; [done|]).
  - apply (append_cancel_l "url") in H. by apply (inj pretty).
  - apply (append_cancel_l "validity") in H. by apply (inj pretty).
  - apply (append_cancel_l "shortcode") in H. by apply (inj pretty).
Qed.

(** ** The validator, key by key *)

Lemma validate_row_put st input idx acc :
  validate_row st input idx acc =
    put st input idx Fshortcode (put st input idx Fvalidity (put st input idx Furl acc)).
Proof.
  unfold validate_row, put, row_error.
  destruct (truthy (Input.url input)); [|done].
  destruct (isValidUrl (Input.url input)); simpl;
    destruct (truthy (Input.validity input) && _); simpl;
    destruct (truthy (Input.shortcode input)); simpl; try done;
    destruct (isValidShortcode (Input.shortcode input)); simpl; try done;
    destruct (isShortcodeUnique st (Input.shortcode input) (Z.of_nat idx)); done.
Qed.

Lemma put_lookup st input idx f m g j :
  put st input idx f m !! key (field_name g) j =
    if decide (f = g /\ idx = j)
    then or_else (row_error st f input idx) (m !! key (field_name g) j)
    else m !! key (field_name g) j.
Proof.
  unfold put.
  destruct (row_error st f input idx) as [msg|]; simpl; [|by case_decide].
  rewrite lookup_insert.
  case_decide as Hk; case_decide as Hd; try done.
  - apply key_inj in Hk. tauto.
  - destruct Hd as [-> ->]. done.
Qed.

Lemma validate_row_lookup st input idx acc f j :
  validate_row st input idx acc !! key (field_name f) j =
    if decide (idx = j)
    then or_else (row_error st f input idx) (acc !! key (field_name f) j)
    else acc !! key (field_name f) j.
Proof.
  rewrite validate_row_put, !put_lookup.
  destruct (decide (idx = j)) as [->|Hne].
  - destruct f; repeat case_decide; try tauto; try done;
      repeat match goal with
             | H : _ /\ _ |- _ => destruct H
             | H : ~ (_ /\ _) |- _ => exfalso; apply H; done
             end; try discriminate.
  - repeat case_decide; try done; tauto.
Qed.

Lemma forEach_validate_lookup st xs i acc f j :
  forEach_from (validate_row st) i xs acc !! key (field_name f) j =
    if decide (i <= j)%nat
    then match xs !! (j - i)%nat with
         | Some input => or_else (row_error st f input j) (acc !! key (field_name f) j)
         | None => acc !! key (field_name f) j
         end
    else acc !! key (field_name f) j.
Proof.
  revert i acc. induction xs as [|x xs IH]; intros i acc; simpl.
  - by case_decide.
  - rewrite IH, validate_row_lookup.
    destruct (decide (i = j)) as [->|Hne].
    + rewrite Nat.sub_diag. simpl.
      rewrite decide_False by lia. by rewrite decide_True by lia.
    + destruct (decide (i <= j)%nat) as [Hle|Hgt].
      * rewrite decide_True by lia.
        replace (j - i)%nat with (S (j - S i)) by lia. done.
      * by rewrite decide_False by lia.
Qed.

(** The message under [key f j] is the one row [j] alone decides. *)
Lemma newErrors_lookup st f j :
  newErrors st !! key (field_name f) j =
    input ← inputs st !! j; row_error st f input j.
Proof.
  unfold newErrors. rewrite forEach_validate_lookup.
  rewrite decide_True by lia. rewrite Nat.sub_0_r.
  destruct (inputs st !! j) as [input|]; simpl; [|done].
  rewrite lookup_empty. by destruct (row_error st f input j).
Qed.

Lemma newErrors_clean st j input f :
  newErrors st = ∅ -> inputs st !! j = Some input -> row_error st f input j = None.
Proof.
  intros Hempty Hj.
  pose proof (newErrors_lookup st f j) as H.
  rewrite Hempty, lookup_empty, Hj in H. done.
Qed.

Lemma newErrors_dirty st j input f msg :
  inputs st !! j = Some input -> row_error st f input j = Some msg -> newErrors st <> ∅.
Proof.
  intros Hj Herr Hempty.
  by rewrite (newErrors_clean st j input f Hempty Hj) in Herr.
Qed.

(** ** Uniqueness check *)

Lemma some_from_true {A} (p : A -> nat -> bool) i xs :
  some_from p i xs = true <->
  exists k x, xs !! k = Some x /\ p x (i + k)%nat = true.
Proof.
  revert i. induction xs as [|x xs IH]; intros i; simpl.
  - split; [done|]. by intros (k & y & Hk & _).
  - rewrite orb_true_iff, IH. split.
    + intros [Hp|(k & y & Hk & Hp)].
      * exists 0%nat, x. by rewrite Nat.add_0_r.
      * exists (S k), y. by rewrite <- Nat.add_succ_comm.
    + intros ([|k] & y & Hk & Hp); simpl in Hk.
      * left. injection Hk as ->. by rewrite Nat.add_0_r in Hp.
      * right. exists k, y. by rewrite Nat.add_succ_comm.
Qed.

Lemma isShortcodeUnique_true st code cur :
  isShortcodeUnique st code cur = true <->
  (forall e, e ∈ shortenedUrls st -> shortcode e <> code) /\
  (forall k input, inputs st !! k = Some input -> Z.of_nat k <> cur ->
                   Input.shortcode input <> code).
Proof.
  unfold isShortcodeUnique.
  rewrite andb_true_iff, !negb_true_iff. split.
  - intros [Hstore Hrows]. split.
    + intros e He Heq.
      apply not_true_iff_false in Hstore. apply Hstore.
      apply existsb_exists. exists e. split; [by apply list_elem_of_In|].
      unfold has_code. by apply String.eqb_eq.
    + intros k input Hk Hcur Heq.
      apply not_true_iff_false in Hrows. apply Hrows.
      apply some_from_true. exists k, input. split; [done|]. simpl.
      apply andb_true_iff. split.
      * apply negb_true_iff. by apply Z.eqb_neq.
      * by apply String.eqb_eq.
  - intros [Hstore Hrows]. split.
    + apply not_true_iff_false. intros (e & He & Hc)%existsb_exists.
      apply (Hstore e); [by apply list_elem_of_In|].
      unfold has_code in Hc. by apply String.eqb_eq.
    + apply not_true_iff_false. intros (k & input & Hk & Hp)%some_from_true.
      simpl in Hp. apply andb_true_iff in Hp as [Hne Heq].
      apply (Hrows k input Hk).
      * apply negb_true_iff in Hne. by apply Z.eqb_neq.
      * by apply String.eqb_eq.
Qed.

(** ** Code generator *)

Lemma generateShortCode_returns st draws code rest :
  generateShortCode st draws = Returns (code, rest) ->
  exists tried rendering,
    draws = (tried ++ rendering :: rest)%list /\
    code = candidate rendering /\
    isShortcodeUnique st code (-1) = true /\
    Forall (fun r => isShortcodeUnique st (candidate r) (-1) = false) tried.
Proof.
  induction draws as [|r draws IH]; simpl; [done|].
  destruct (isShortcodeUnique st (candidate r) (-1)) eqn:Hu; simpl.
  - intros [= <- <-]. exists [], r. by repeat split.
  - intros (tried & rendering & -> & Hc & Hun & Htried)%IH.
    exists (r :: tried), rendering. repeat split; try done. by constructor.
Qed.

(** The loop ends at the first draw whose candidate is free, however many
    taken candidates come before it. *)
Lemma generateShortCode_first_free st tried rendering rest :
  Forall (fun r => isShortcodeUnique st (candidate r) (-1) = false) tried ->
  isShortcodeUnique st (candidate rendering) (-1) = true ->
  generateShortCode st (tried ++ rendering :: rest) = Returns (candidate rendering, rest).
Proof.
  intros Htried Hfree. induction Htried as [|r tried Hr _ IH]; simpl.
  - by rewrite Hfree.
  - by rewrite Hr.
Qed.

(** While every candidate is taken the loop goes on. *)
Lemma generateShortCode_pending st draws :
  generateShortCode st draws = Pending <->
  Forall (fun r => isShortcodeUnique st (candidate r) (-1) = false) draws.
Proof.
  induction draws as [|r draws IH]; simpl; [by split|].
  destruct (isShortcodeUnique st (candidate r) (-1)) eqn:Hu; simpl.
  - split; [done|]. intros H. inversion H; congruence.
  - rewrite IH. split; [by constructor|]. by inversion 1.
Qed.

Lemma generateShortCode_fresh st draws code rest :
  generateShortCode st draws = Returns (code, rest) ->
  (forall e, e ∈ shortenedUrls st -> shortcode e <> code) /\
  (forall k input, inputs st !! k = Some input -> Input.shortcode input <> code).
Proof.
  intros (_ & _ & _ & _ & Hu & _)%generateShortCode_returns.
  apply isShortcodeUnique_true in Hu as [Hstore Hrows].
  split; [done|]. intros k input Hk. apply (Hrows k input Hk). lia.
Qed.

Lemma every_substring p n m s :
  every p s = true -> every p (substring n m s) = true.
Proof.
  revert n m. induction s as [|c s IH]; intros n m; simpl.
  - by destruct n, m.
  - intros [Hc Hs]%andb_true_iff.
    destruct n as [|n]; [destruct m as [|m]|]; simpl; auto.
    by rewrite Hc, IH.
Qed.

Lemma length_substring_le n m s : (String.length (substring n m s) <= m)%nat.
Proof.
  revert n m. induction s as [|c s IH]; intros n m; simpl.
  - destruct n, m; simpl; lia.
  - destruct n as [|n]; [destruct m as [|m]|]; simpl; auto.
    + specialize (IH 0%nat m). lia.
Qed.

Lemma candidate_length rendering : (String.length (candidate rendering) <= 6)%nat.
Proof. apply length_substring_le. Qed.

(** ** Building the entries *)

Lemma mapM_returns {A B} (f : A -> M B) xs draws ys rest :
  mapM f xs draws = Returns (ys, rest) ->
  Forall2 (fun x y => exists d1 d2, f x d1 = Returns (y, d2)) xs ys.
Proof.
  revert draws ys. induction xs as [|x xs IH]; intros draws ys; simpl.
  - unfold ret. intros [= <- <-]. constructor.
  - unfold bind at 1.
    destruct (f x draws) as [[y d1]| |] eqn:Hf; simpl; try done.
    unfold bind at 1.
    destruct (mapM f xs d1) as [[ys' d2]| |] eqn:Hxs; simpl; try done.
    unfold ret. intros [= <- <-].
    constructor; [by exists draws, d1|by eapply IH].
Qed.

Lemma toISOString_returns t s :
  toISOString t = Returns s -> s = iso t /\ Z.abs t <= 8640000000000000.
Proof.
  unfold toISOString.
  destruct (Z.abs t <=? 8640000000000000) eqn:Hr; [|done].
  intros [= <-]. split; [done|]. by apply Z.leb_le.
Qed.

Lemma shorten_row_returns st now input draws e rest :
  shorten_row st now input draws = Returns (e, rest) ->
  originalUrl e = Input.url input /\
  shortUrl e = origin +:+ "/" +:+ shortcode e /\
  createdAt e = iso now /\
  expiresAt e = iso (now + minutes input * 60000) /\
  clicks e = 0 /\
  (if truthy (Input.shortcode input)
   then shortcode e = Input.shortcode input /\ rest = draws
   else generateShortCode st draws = Returns (shortcode e, rest)).
Proof.
  unfold shorten_row, bind, lift, ret, minutes.
  destruct (truthy (Input.shortcode input)); simpl.
  - destruct (toISOString now) as [created| |] eqn:Hc; simpl; try done.
    destruct (toISOString (_ + _)) as [expires| |] eqn:He; simpl; try done.
    intros [= <- <-]; simpl.
    apply toISOString_returns in Hc as [-> _], He as [-> _]. done.
  - destruct (generateShortCode st draws) as [[code d1]| |] eqn:Hg; simpl; try done.
    destruct (toISOString now) as [created| |] eqn:Hc; simpl; try done.
    destruct (toISOString (_ + _)) as [expires| |] eqn:He; simpl; try done.
    intros [= <- <-]; simpl.
    apply toISOString_returns in Hc as [-> _], He as [-> _]. done.
Qed.

(** ** [handleShorten], case by case *)

Lemma handleShorten_invalid now w draws :
  newErrors (ui w) <> ∅ -> handleShorten now w draws = Returns (rejected w, draws).
Proof.
  intros Herr. unfold handleShorten, validateInputs.
  by rewrite bool_decide_eq_false_2.
Qed.

Lemma handleShorten_valid now w draws w' rest :
  newErrors (ui w) = ∅ ->
  handleShorten now w draws = Returns (w', rest) ->
  exists created,
    newShortened (ui w) now draws = Returns (created, rest) /\
    shortenedUrls (ui w') = (shortenedUrls (ui w) ++ created)%list /\
    localStorage w' =
      match created with
      | [] => localStorage w
      | _ => setStoredUrls (shortenedUrls (ui w) ++ created)
      end.
Proof.
  intros Hok. unfold handleShorten, validateInputs.
  rewrite bool_decide_eq_true_2 by done. simpl.
  unfold bind at 1.
  destruct (newShortened (ui w) now draws) as [[created d1]| |]; simpl; try done.
  destruct created as [|e created]; simpl.
  - unfold ret. intros [= <- <-]. exists []. simpl. by rewrite app_nil_r.
  - unfold ret. intros [= <- <-]. by exists (e :: created).
Qed.

Lemma storage_round_trip urls :
  getStoredUrls (setStoredUrls urls) = Returns (entries_to_json urls).
Proof. done. Qed.

(** ** Shortcode format *)

Lemma between_spec lo hi c :
  between lo hi c = true <->
  (nat_of_ascii lo <= nat_of_ascii c <= nat_of_ascii hi)%nat.
Proof. unfold between. rewrite andb_true_iff, !Nat.leb_le. done. Qed.

Lemma is_alnum_spec c : is_alnum c = true <-> alphanumeric c.
Proof.
  unfold is_alnum, is_lower, is_upper, is_digit, alphanumeric.
  rewrite !orb_true_iff, !between_spec.
  change (nat_of_ascii "a") with 97%nat. change (nat_of_ascii "z") with 122%nat.
  change (nat_of_ascii "A") with 65%nat. change (nat_of_ascii "Z") with 90%nat.
  change (nat_of_ascii "0") with 48%nat. change (nat_of_ascii "9") with 57%nat.
  simpl. tauto.
Qed.

Lemma every_Forall p (P : ascii -> Prop) s :
  (forall c, p c = true <-> P c) ->
  every p s = true <-> Forall P (list_ascii_of_string s).
Proof.
  intros Hp. induction s as [|c s IH]; simpl.
  - split; [constructor|done].
  - rewrite andb_true_iff, Forall_cons, Hp, IH. done.
Qed.

Lemma isValidShortcode_spec code :
  isValidShortcode code = true <-> matches_shortcode_pattern code.
Proof.
  unfold isValidShortcode, matches_shortcode_pattern.
  rewrite !andb_true_iff, !Nat.leb_le, (every_Forall _ _ _ is_alnum_spec). tauto.
Qed.

Lemma isValidShortcode_false code :
  isValidShortcode code = false <-> ~ matches_shortcode_pattern code.
Proof. rewrite <- isValidShortcode_spec. by destruct (isValidShortcode code). Qed.

Lemma truthy_true s : truthy s = true <-> s <> "".
Proof. by destruct s. Qed.

(** ** Resolution *)

Lemma clicks_or_zero_id n : clicks_or_zero n = n.
Proof. unfold clicks_or_zero. destruct (Z.eqb_spec n 0); congruence. Qed.

Lemma round_to_double_small z : Z.abs z <= 2 ^ 53 -> round_to_double z = z.
Proof.
  clear URL_parses origin iso.
  intros Hz. unfold round_to_double.
  destruct (Z.leb_spec (Z.abs z) (2 ^ 53)); [done|lia].
Qed.

Lemma round_to_double_sign z :
  (0 < z -> 0 < round_to_double z) /\ (z <= 0 -> round_to_double z <= 0).
Proof.
  clear URL_parses origin iso.
  unfold round_to_double.
  destruct (Z.leb_spec (Z.abs z) (2 ^ 53)) as [Hsmall|Hbig]; [lia|].
  set (a := Z.abs z) in *.
  assert (53 <= Z.log2 a) as Hlog.
  { change 53 with (Z.log2 (2 ^ 53)). apply Z.log2_le_mono. lia. }
  assert (0 < 2 ^ (Z.log2 a - 52)) as Hulp by (apply Z.pow_pos_nonneg; lia).
  assert (2 ^ (Z.log2 a - 52) <= a) as Hle.
  { transitivity (2 ^ Z.log2 a).
    - apply Z.pow_le_mono_r; lia.
    - apply Z.log2_spec. lia. }
  set (ulp := 2 ^ (Z.log2 a - 52)) in *.
  assert (1 <= a / ulp) as Hq.
  { apply Z.div_le_lower_bound; lia. }
  set (q' := if 2 * (a mod ulp) <? ulp then a / ulp
             else if ulp <? 2 * (a mod ulp) then a / ulp + 1
             else if Z.even (a / ulp) then a / ulp else a / ulp + 1).
  assert (1 <= q') as Hq'.
  { unfold q'. repeat (destruct (_ <? _) || destruct (Z.even _)); lia. }
  assert (0 < q' * ulp) as Hpos by (apply Z.mul_pos_pos; lia).
  split; intros Hz.
  - rewrite Z.sgn_pos by done. lia.
  - assert (z < 0) as Hneg by lia. rewrite Z.sgn_neg by done. lia.
Qed.

Lemma js_add_exact x y : Z.abs (x + y) <= 2 ^ 53 -> js_add x y = x + y.
Proof. apply round_to_double_small. Qed.

Lemma click_with_clicks e : click e = with_clicks e (js_add (clicks e) 1).
Proof. unfold click, with_clicks. by rewrite clicks_or_zero_id. Qed.

Lemma click_exact e :
  - 2 ^ 53 < clicks e < 2 ^ 53 -> click e = with_clicks e (clicks e + 1).
Proof.
  clear URL_parses origin iso.
  intros Hc. rewrite click_with_clicks, js_add_exact; [done|lia].
Qed.

Lemma click_shortcode e : shortcode (click e) = shortcode e.
Proof. done. Qed.

(** ** Reading the store back *)

Lemma entry_of_json_encoded e : entry_of_json (entry_to_json e) = Some e.
Proof. by destruct e. Qed.

Lemma entries_of_json_encoded l : entries_of_json (entries_to_json l) = Some l.
Proof.
  unfold entries_of_json, entries_to_json.
  induction l as [|e l IH]; [done|].
  change (match entry_of_json (entry_to_json e),
                entries_of_items (map entry_to_json l) with
          | Some e', Some es => Some (e' :: es)
          | _, _ => None
          end = Some (e :: l)).
  by rewrite entry_of_json_encoded, IH.
Qed.

Lemma stored_entries_written l : stored_entries (setStoredUrls l) = Some l.
Proof. unfold stored_entries. simpl. apply entries_of_json_encoded. Qed.

Lemma has_code_true code e : has_code code e = true <-> shortcode e = code.
Proof. unfold has_code. apply String.eqb_eq. Qed.

Lemma has_code_false code e : has_code code e = false <-> shortcode e <> code.
Proof. unfold has_code. apply String.eqb_neq. Qed.

Lemma find_unknown code (l : list LinkEntry) :
  (forall x, x ∈ l -> shortcode x <> code) ->
  find (has_code code) l = None /\ existsb (has_code code) l = false.
Proof.
  induction l as [|x l IH]; simpl; intros Hl; [done|].
  assert (has_code code x = false) as ->.
  { apply has_code_false, Hl. left. }
  simpl. apply IH. intros y Hy. apply Hl. by right.
Qed.

Lemma find_first code (l1 l2 : list LinkEntry) e :
  (forall x, x ∈ l1 -> shortcode x <> code) ->
  shortcode e = code ->
  find (has_code code) (l1 ++ e :: l2) = Some e /\
  existsb (has_code code) (l1 ++ e :: l2) = true.
Proof.
  intros Hl1 He. induction l1 as [|x l1 IH]; simpl.
  - apply has_code_true in He. by rewrite He.
  - assert (has_code code x = false) as ->.
    { apply has_code_false, Hl1. left. }
    simpl. apply IH. intros y Hy. apply Hl1. by right.
Qed.




Lemma updatedUrls_lookup l code i :
  updatedUrls l code !! i =
    (fun url => if has_code code url then click url else url) <$> l !! i.
Proof. unfold updatedUrls. apply list_lookup_fmap. Qed.

Lemma find_present code (l : list LinkEntry) e :
  e ∈ l ->
  shortcode e = code ->
  exists found,
    find (has_code code) l = Some found /\
    found ∈ l /\ shortcode found = code /\
    existsb (has_code code) l = true.
Proof.
  intros Hin He. induction l as [|x l IH]; [by apply elem_of_nil in Hin|].
  simpl. destruct (has_code code x) eqn:Hx.
  - exists x. repeat split; [left|by apply has_code_true].
  - apply elem_of_cons in Hin as [->|Hin].
    + apply has_code_false in Hx. done.
    + destruct (IH Hin) as (found & Hfind & Hfound & Hcode & Hsome).
      exists found. repeat split; try done. by right.
Qed.

Lemma find_first_match code (l : list LinkEntry) i e :
  l !! i = Some e ->
  shortcode e = code ->
  exists k found,
    l !! k = Some found /\ (k <= i)%nat /\ shortcode found = code /\
    (forall j x, (j < k)%nat -> l !! j = Some x -> shortcode x <> code) /\
    find (has_code code) l = Some found /\
    existsb (has_code code) l = true.
Proof.
  clear URL_parses origin iso.
  revert i. induction l as [|x l IH]; intros i Hi He; [done|].
  simpl. destruct (has_code code x) eqn:Hx.
  - exists 0%nat, x. split; [done|]. split; [lia|].
    split; [by apply has_code_true|]. split; [intros j y Hj; lia|done].
  - destruct i as [|i]; simpl in Hi.
    + injection Hi as ->. apply has_code_false in Hx. done.
    + destruct (IH i Hi He) as (k & found & Hk & Hki & Hcode & Hbefore & Hfind & Hsome).
      exists (S k), found. split; [done|]. split; [lia|]. split; [done|].
      split; [|done].
      intros [|j] y Hj Hy; simpl in Hy.
      * injection Hy as <-. by apply has_code_false.
      * apply (Hbefore j y); [lia|done].
Qed.

Lemma find_at code (l : list LinkEntry) i e :
  l !! i = Some e ->
  (forall j x, (j < i)%nat -> l !! j = Some x -> shortcode x <> code) ->
  shortcode e = code ->
  find (has_code code) l = Some e /\ existsb (has_code code) l = true.
Proof.
  intros Hi Hbefore He.
  rewrite <- (take_drop_middle l i e Hi).
  apply find_first; [|done].
  intros x (j & Hj & Hlt)%elem_of_take. by apply (Hbefore j x).
Qed.

(** ** Claims about the store and the redirect view *)

(** C9. Loading the store never raises: whatever the record holds, the
    load returns a value; when the record is missing or its text is not
    JSON, that value is the empty entry list. *)
Theorem getStoredUrls_missing_or_malformed ls :
  (exists v, getStoredUrls ls = Returns v) /\
  ((ls = Absent \/ exists raw, ls = Garbage raw) ->
   getStoredUrls ls = Returns (JArr [])).
Proof.
  split.
  - destruct ls as [|raw|v]; unfold getStoredUrls; simpl; eauto.
  - intros [->|[raw ->]]; reflexivity.
Qed.


(** C4. When no entry of the list has the code (in particular when the
    list is empty), resolving it leaves the record in [localStorage] as it
    is, shows the not-found notice and schedules the navigation to the home
    view 3000 ms later. *)
Theorem resolve_unknown_code l code ls :
  (forall x, x ∈ l -> shortcode x <> code) ->
  RedirectShortUrl l code ls = (ls, NavigateAfter 3000 "/") /\
  RedirectShortUrl_view l code = ShortUrlNotFound.
Proof.
  intros [Hfind Hsome]%find_unknown.
  unfold RedirectShortUrl, RedirectShortUrl_view. by rewrite Hfind, Hsome.
Qed.

(** C7 (amended). Resolution never looks at the expiry. For an entry whose
    [expiresAt] lies before the clock reading [now], resolving its code
    succeeds, with the redirecting notice and never the not-found one; the
    location is set to the original URL of the first entry of the list with
    that code, which is the entry itself when no earlier entry shares its
    code; the list is written back, and found there by a view that loads the
    store, with the entry's clicks incremented, by exactly one while they are
    below 2^53 in size. The same holds whatever expiry the entry carries. *)
Theorem resolve_ignores_expiry l i e now t ls :
  l !! i = Some e ->
  expiresAt e = iso t ->
  t < now ->
  RedirectShortUrl_view l (shortcode e) = Redirecting /\
  (exists k found,
     l !! k = Some found /\ (k <= i)%nat /\ shortcode found = shortcode e /\
     (forall j x, (j < k)%nat -> l !! j = Some x -> shortcode x <> shortcode e) /\
     RedirectShortUrl l (shortcode e) ls =
       (setStoredUrls (updatedUrls l (shortcode e)), SetHref (originalUrl found)) /\
     forall x,
       snd (RedirectShortUrl (<[i := with_expiresAt e x]> l) (shortcode e) ls) =
         SetHref (originalUrl found)) /\
  stored_entries (fst (RedirectShortUrl l (shortcode e) ls)) =
    Some (updatedUrls l (shortcode e)) /\
  updatedUrls l (shortcode e) !! i = Some (with_clicks e (js_add (clicks e) 1)) /\
  (- 2 ^ 53 < clicks e < 2 ^ 53 ->
   updatedUrls l (shortcode e) !! i = Some (with_clicks e (clicks e + 1))) /\
  (forall x,
     updatedUrls (<[i := with_expiresAt e x]> l) (shortcode e) =
       <[i := with_expiresAt (with_clicks e (js_add (clicks e) 1)) x]>
         (updatedUrls l (shortcode e))) /\
  ((forall j x, (j < i)%nat -> l !! j = Some x -> shortcode x <> shortcode e) ->
   RedirectShortUrl l (shortcode e) ls =
     (setStoredUrls (updatedUrls l (shortcode e)), SetHref (originalUrl e))).
Proof.
  intros Hi _ _.
  destruct (find_first_match (shortcode e) l i e Hi eq_refl)
    as (k & found & Hk & Hki & Hcode & Hbefore & Hfind & Hsome).
  assert (updatedUrls l (shortcode e) !! i = Some (with_clicks e (js_add (clicks e) 1)))
    as Hclick.
  { rewrite updatedUrls_lookup, Hi. simpl.
    rewrite (proj2 (has_code_true _ _) eq_refl). by rewrite click_with_clicks. }
  split; [|split; [|split; [|split; [|split; [|split]]]]].
  - unfold RedirectShortUrl_view. by rewrite Hsome.
  - exists k, found. do 4 (split; [done|]). split.
    + unfold RedirectShortUrl. by rewrite Hfind.
    + intros x.
      assert (i < length l)%nat as Hlen by (by eapply lookup_lt_Some).
      destruct (decide (k = i)) as [->|Hne].
      * assert (found = e) as -> by congruence.
        destruct (find_at (shortcode e) (<[i := with_expiresAt e x]> l) i
                    (with_expiresAt e x)) as [Hfind' _].
        -- by apply list_lookup_insert_eq.
        -- intros j y Hj. rewrite list_lookup_insert_ne by lia. by apply Hbefore.
        -- done.
        -- unfold RedirectShortUrl. by rewrite Hfind'.
      * destruct (find_at (shortcode e) (<[i := with_expiresAt e x]> l) k found)
          as [Hfind' _].
        -- by rewrite list_lookup_insert_ne.
        -- intros j y Hj. rewrite list_lookup_insert_ne by lia. by apply Hbefore.
        -- done.
        -- unfold RedirectShortUrl. by rewrite Hfind'.
  - unfold RedirectShortUrl. rewrite Hfind. apply stored_entries_written.
  - done.
  - intros Hrange. rewrite Hclick, js_add_exact; [done|lia].
  - intros x. unfold updatedUrls.
    change (map ?f ?l) with (f <$> l).
    rewrite list_fmap_insert. simpl.
    change (has_code (shortcode e) (with_expiresAt e x)) with (has_code (shortcode e) e).
    rewrite (proj2 (has_code_true _ _) eq_refl).
    by rewrite click_with_clicks.
  - intros Hfirst.
    destruct (find_at (shortcode e) l i e Hi Hfirst eq_refl) as [Hfind_e _].
    unfold RedirectShortUrl. by rewrite Hfind_e.
Qed.

(** ** Claims about validation *)

Lemma taken_when_duplicated st i j ri rj :
  i <> j ->
  inputs st !! i = Some ri ->
  inputs st !! j = Some rj ->
  Input.shortcode ri = Input.shortcode rj ->
  isShortcodeUnique st (Input.shortcode rj) (Z.of_nat j) = false.
Proof.
  intros Hij Hi Hj Hsame.
  apply not_true_iff_false. intros [_ Hrows]%isShortcodeUnique_true.
  apply (Hrows i ri Hi); [lia|done].
Qed.

Lemma shortcode_error_taken st i j ri rj :
  i <> j ->
  inputs st !! i = Some ri ->
  inputs st !! j = Some rj ->
  Input.url rj <> "" ->
  Input.shortcode rj <> "" ->
  Input.shortcode ri = Input.shortcode rj ->
  isValidShortcode (Input.shortcode rj) = true ->
  newErrors st !! key "shortcode" j = Some "This code is already taken".
Proof.
  intros Hij Hi Hj Hurl Hcode Hsame Hfmt.
  change "shortcode" with (field_name Fshortcode).
  rewrite newErrors_lookup, Hj. simpl. unfold row_error.
  apply truthy_true in Hurl, Hcode. rewrite Hurl, Hcode, Hfmt.
  by rewrite (taken_when_duplicated st i j ri rj).
Qed.

Lemma shortcode_error_format st j rj :
  inputs st !! j = Some rj ->
  Input.url rj <> "" ->
  Input.shortcode rj <> "" ->
  (newErrors st !! key "shortcode" j = Some "3-10 alphanumeric chars" <->
   isValidShortcode (Input.shortcode rj) = false).
Proof.
  intros Hj Hurl Hcode.
  change "shortcode" with (field_name Fshortcode).
  rewrite newErrors_lookup, Hj. simpl. unfold row_error.
  apply truthy_true in Hurl, Hcode. rewrite Hurl, Hcode.
  destruct (isValidShortcode (Input.shortcode rj)); [|done].
  destruct (isShortcodeUnique st _ _); split; done.
Qed.

(** C1. When validation leaves any error, [handleShorten] stores the error
    bag and changes neither the list of entries nor the record in
    [localStorage]; no draw is consumed, so no entry is built at all. In
    particular two rows that both carry the code [same1] make the row with
    a URL fail as taken, and the whole batch is rejected. *)
Theorem submitBatch_rejects_whole_batch now w draws :
  (newErrors (ui w) <> ∅ ->
   handleShorten now w draws = Returns (rejected w, draws)) /\
  (forall i j ri rj,
     i <> j ->
     inputs (ui w) !! i = Some ri ->
     inputs (ui w) !! j = Some rj ->
     Input.url rj <> "" ->
     Input.shortcode ri = "same1" ->
     Input.shortcode rj = "same1" ->
     newErrors (ui w) !! key "shortcode" j = Some "This code is already taken" /\
     handleShorten now w draws = Returns (rejected w, draws)).
Proof.
  split; [apply handleShorten_invalid|].
  intros i j ri rj Hij Hi Hj Hurl Hri Hrj.
  assert (newErrors (ui w) !! key "shortcode" j = Some "This code is already taken") as Htaken.
  { apply (shortcode_error_taken _ i j ri rj); try done.
    - by rewrite Hrj.
    - congruence.
    - by rewrite Hrj. }
  split; [done|].
  apply handleShorten_invalid. intros Hempty.
  by rewrite Hempty, lookup_empty in Htaken.
Qed.

(** C8. For a row with a URL and a shortcode, the format error is recorded
    exactly when the shortcode does not match [^[A-Za-z0-9]{3,10}$]; a
    batch with such a row is rejected as a whole; [ab] does not match; and
    a row whose shortcode field is empty never gets a shortcode error. *)
Theorem shortcode_format_error now w draws :
  (forall idx input,
     inputs (ui w) !! idx = Some input ->
     Input.url input <> "" ->
     Input.shortcode input <> "" ->
     (newErrors (ui w) !! key "shortcode" idx = Some "3-10 alphanumeric chars" <->
      ~ matches_shortcode_pattern (Input.shortcode input)) /\
     (~ matches_shortcode_pattern (Input.shortcode input) ->
      handleShorten now w draws = Returns (rejected w, draws))) /\
  ~ matches_shortcode_pattern "ab" /\
  (forall idx input,
     inputs (ui w) !! idx = Some input ->
     Input.shortcode input = "" ->
     newErrors (ui w) !! key "shortcode" idx = None).
Proof.
  split; [|split].
  - intros idx input Hidx Hurl Hcode.
    pose proof (shortcode_error_format (ui w) idx input Hidx Hurl Hcode) as Hfmt.
    rewrite isValidShortcode_false in Hfmt.
    split; [done|].
    intros Hbad. apply handleShorten_invalid. intros Hempty.
    apply Hfmt in Hbad. by rewrite Hempty, lookup_empty in Hbad.
  - intros [Hlen _]. simpl in Hlen. lia.
  - intros idx input Hidx Hcode.
    change "shortcode" with (field_name Fshortcode).
    rewrite newErrors_lookup, Hidx. simpl. unfold row_error. rewrite Hcode. simpl.
    by destruct (truthy (Input.url input)).
Qed.

(** ** Claims about the created entries *)

Lemma Forall2_impl_elem {A B} (R R' : A -> B -> Prop) xs ys :
  Forall2 R xs ys ->
  (forall x y, x ∈ xs -> R x y -> R' x y) ->
  Forall2 R' xs ys.
Proof.
  induction 1 as [|x y xs ys Hxy _ IH]; intros Himpl; constructor.
  - apply Himpl; [left|done].
  - apply IH. intros x' y' Hx'. apply Himpl. by right.
Qed.

Lemma Forall2_codomain {A B} (R : A -> B -> Prop) xs ys :
  Forall2 R xs ys -> Forall (fun y => exists x, x ∈ xs /\ R x y) ys.
Proof.
  induction 1 as [|x y xs ys Hxy _ IH]; constructor.
  - exists x. split; [left|done].
  - eapply Forall_impl; [exact IH|].
    intros y' (x' & Hx' & HR). exists x'. split; [by right|done].
Qed.

Lemma submitted_row st input :
  input ∈ filter (fun input => truthy (Input.url input)) (inputs st) ->
  Input.url input <> "" /\ exists j, inputs st !! j = Some input.
Proof.
  intros [Hurl Hin]%list_elem_of_filter. split.
  - apply truthy_true. by apply Is_true_true.
  - by apply list_elem_of_lookup.
Qed.

Lemma validity_checked st j input :
  newErrors st = ∅ ->
  inputs st !! j = Some input ->
  Input.url input <> "" ->
  Input.validity input <> "" ->
  test_digits (Input.validity input) = true /\ 0 < parseInt (Input.validity input).
Proof.
  intros Hok Hj Hurl Hval.
  pose proof (newErrors_clean st j input Fvalidity Hok Hj) as Hrow.
  unfold row_error in Hrow.
  apply truthy_true in Hurl, Hval. rewrite Hurl, Hval in Hrow. simpl in Hrow.
  destruct (test_digits (Input.validity input)); simpl in Hrow; [|done].
  destruct (Z.leb_spec (parseInt (Input.validity input)) 0); [done|]. split; [done|lia].
Qed.

(** C5. After a batch that passed validation, the list of entries is the
    old list followed by one entry per row with a non-empty URL, in row
    order; each has zero clicks, the creation time of the batch, an expiry
    [minutes] later (the row's validity, a positive integer, or 30 when the
    field is empty) and the short URL made of the origin, a slash and its
    shortcode, which is the row's own when the row supplies one. *)
Theorem created_entries_fields now w draws w' rest :
  newErrors (ui w) = ∅ ->
  handleShorten now w draws = Returns (w', rest) ->
  exists created,
    shortenedUrls (ui w') = (shortenedUrls (ui w) ++ created)%list /\
    Forall2
      (fun input e =>
         Input.url input <> "" /\
         originalUrl e = Input.url input /\
         clicks e = 0 /\
         createdAt e = iso now /\
         expiresAt e = iso (now + minutes input * 60000) /\
         shortUrl e = origin +:+ "/" +:+ shortcode e /\
         (Input.shortcode input <> "" -> shortcode e = Input.shortcode input) /\
         (Input.shortcode input = "" ->
          exists d1 d2, generateShortCode (ui w) d1 = Returns (shortcode e, d2)) /\
         (Input.validity input = "" -> minutes input = 30) /\
         (Input.validity input <> "" ->
          test_digits (Input.validity input) = true /\
          0 < parseInt (Input.validity input) /\
          minutes input = parseInt (Input.validity input)))
      (filter (fun input => truthy (Input.url input)) (inputs (ui w)))
      created.
Proof.
  intros Hok Hrun.
  destruct (handleShorten_valid now w draws w' rest Hok Hrun)
    as (created & Hnew & Hlist & _).
  exists created. split; [done|].
  apply mapM_returns in Hnew.
  eapply Forall2_impl_elem; [exact Hnew|].
  intros input e [Hurl [j Hj]]%submitted_row (d1 & d2 & Hrow).
  apply shorten_row_returns in Hrow
    as (Horig & Hshort & Hcreated & Hexpires & Hclicks & Hcode).
  do 6 (split; [done|]). split; [|split; [|split]].
  - intros Hsc%truthy_true. rewrite Hsc in Hcode. by destruct Hcode.
  - intros Hsc. rewrite Hsc in Hcode. simpl in Hcode. by exists d1, d2.
  - intros Hval. unfold minutes. by rewrite Hval.
  - intros Hval.
    destruct (validity_checked (ui w) j input Hok Hj Hurl Hval) as [Hdigits Hpos].
    do 2 (split; [done|]).
    unfold minutes. apply truthy_true in Hval. by rewrite Hval.
Qed.

(** C6 (amended). A call of [handleShorten] that returns keeps every entry
    of the view's list at its place with all its fields, the new entries
    coming after them. The store is not read: when entries are created it is
    overwritten with that extended list, and otherwise left as it is. So the
    entries that were in the store before the call are all kept when the
    store held the view's list, as it does when nothing else wrote to it
    since the view loaded it. *)
Theorem previous_entries_kept now w draws w' rest :
  handleShorten now w draws = Returns (w', rest) ->
  exists created,
    shortenedUrls (ui w') = (shortenedUrls (ui w) ++ created)%list /\
    (forall i e, shortenedUrls (ui w) !! i = Some e ->
                 shortenedUrls (ui w') !! i = Some e) /\
    (created <> [] ->
     stored_entries (localStorage w') = Some (shortenedUrls (ui w) ++ created)%list) /\
    (created = [] -> localStorage w' = localStorage w) /\
    (stored_entries (localStorage w) = Some (shortenedUrls (ui w)) ->
     stored_entries (localStorage w') = Some (shortenedUrls (ui w) ++ created)%list /\
     forall i e stored,
       stored_entries (localStorage w) = Some stored ->
       stored !! i = Some e ->
       exists stored', stored_entries (localStorage w') = Some stored' /\
                       stored' !! i = Some e).
Proof.
  intros Hrun.
  assert (exists created,
            shortenedUrls (ui w') = (shortenedUrls (ui w) ++ created)%list /\
            localStorage w' =
              match created with
              | [] => localStorage w
              | _ => setStoredUrls (shortenedUrls (ui w) ++ created)
              end) as (created & Hlist & Hstore).
  { destruct (decide (newErrors (ui w) = ∅)) as [Hok|Herr].
    - destruct (handleShorten_valid now w draws w' rest Hok Hrun)
        as (created & _ & Hlist & Hstore). by exists created.
    - rewrite (handleShorten_invalid now w draws Herr) in Hrun.
      injection Hrun as <- _. exists []. simpl. by rewrite app_nil_r. }
  assert (stored_entries (localStorage w) = Some (shortenedUrls (ui w)) ->
          stored_entries (localStorage w') = Some (shortenedUrls (ui w) ++ created)%list)
    as Hsync.
  { intros Hsame. rewrite Hstore. destruct created; [by rewrite app_nil_r|].
    apply stored_entries_written. }
  exists created. split; [done|]. split; [|split; [|split]].
  - intros i e Hi. rewrite Hlist. by apply lookup_app_l_Some.
  - intros Hnew. rewrite Hstore. destruct created; [done|].
    apply stored_entries_written.
  - intros ->. done.
  - intros Hsame. split; [by apply Hsync|].
    intros i e stored Hstored Hi.
    exists (shortenedUrls (ui w) ++ created)%list. split; [by apply Hsync|].
    assert (stored = shortenedUrls (ui w)) as -> by congruence.
    by apply lookup_app_l_Some.
Qed.

(** ** Claims about the code generator *)

Lemma candidate_base36 rendering :
  base36_fraction rendering ->
  every is_base36 (candidate rendering) = true /\
  (String.length (candidate rendering) <= 6)%nat.
Proof.
  intros (digits & -> & Hdigits). split; [|apply candidate_length].
  unfold candidate. simpl. by apply every_substring.
Qed.

(** C10. A row without a URL is neither validated nor submitted, yet its
    shortcode counts in the uniqueness check: the same code typed in
    another row (one with a URL) makes that row fail, as taken when the
    code is well formed, and the generator never returns that code. *)
Theorem skipped_row_shortcode_still_reserved now w i ri :
  inputs (ui w) !! i = Some ri ->
  Input.url ri = "" ->
  (forall f, newErrors (ui w) !! key (field_name f) i = None) /\
  (forall draws created rest,
     newShortened (ui w) now draws = Returns (created, rest) ->
     Forall (fun e => originalUrl e <> "") created) /\
  (forall j rj,
     j <> i ->
     inputs (ui w) !! j = Some rj ->
     Input.url rj <> "" ->
     Input.shortcode rj <> "" ->
     Input.shortcode rj = Input.shortcode ri ->
     newErrors (ui w) <> ∅ /\
     (isValidShortcode (Input.shortcode rj) = true ->
      newErrors (ui w) !! key "shortcode" j = Some "This code is already taken")) /\
  (forall draws code rest,
     generateShortCode (ui w) draws = Returns (code, rest) ->
     code <> Input.shortcode ri).
Proof.
  intros Hi Hurl. split; [|split; [|split]].
  - intros f. rewrite newErrors_lookup, Hi. simpl. unfold row_error. by rewrite Hurl.
  - intros draws created rest Hnew.
    apply mapM_returns, Forall2_codomain in Hnew.
    eapply Forall_impl; [exact Hnew|].
    intros e (input & [Hin _]%submitted_row & d1 & d2 & Hrow).
    apply shorten_row_returns in Hrow as (-> & _). done.
  - intros j rj Hji Hj Hurlj Hcode Hsame.
    assert (isValidShortcode (Input.shortcode rj) = true ->
            newErrors (ui w) !! key "shortcode" j = Some "This code is already taken")
      as Htaken.
    { intros Hfmt. by apply (shortcode_error_taken (ui w) i j ri rj). }
    split; [|done].
    intros Hempty. rewrite Hempty, lookup_empty in Htaken.
    destruct (isValidShortcode (Input.shortcode rj)) eqn:Hfmt.
    + by specialize (Htaken eq_refl).
    + apply (shortcode_error_format (ui w) j rj Hj Hurlj Hcode) in Hfmt.
      by rewrite Hempty, lookup_empty in Hfmt.
  - intros draws code rest [_ Hrows]%generateShortCode_fresh Heq.
    by apply (Hrows i ri Hi).
Qed.

(** ** Further properties of the redirect view *)

Lemma with_clicks_same e : with_clicks e (clicks e) = e.
Proof. by destruct e. Qed.

Lemma find_existsb {A} (p : A -> bool) (l : list A) :
  existsb p l = match find p l with Some _ => true | None => false end.
Proof.
  induction l as [|x l IH]; simpl; [done|].
  by destruct (p x).
Qed.

(** X1. The list that the redirect view writes back has the entries of the
    list it was given, in the same order and with every field but the clicks
    as it was. An entry without the visited code is untouched; every entry
    with the code (all of them when the code occurs more than once) has its
    clicks raised by one when they are below 2^53 in size, while a count of
    2^53 stays as it is, the sum not being a double. When some entry has the
    code, a view that loads the store afterwards finds exactly this list. *)
Theorem updatedUrls_changes_clicks_only l code ls :
  length (updatedUrls l code) = length l /\
  map (fun e => with_clicks e 0) (updatedUrls l code) = map (fun e => with_clicks e 0) l /\
  (forall i e, l !! i = Some e -> shortcode e <> code ->
               updatedUrls l code !! i = Some e) /\
  (forall i e, l !! i = Some e -> shortcode e = code ->
               - 2 ^ 53 < clicks e < 2 ^ 53 ->
               updatedUrls l code !! i = Some (with_clicks e (clicks e + 1))) /\
  (forall i e, l !! i = Some e -> shortcode e = code ->
               clicks e = 2 ^ 53 ->
               updatedUrls l code !! i = Some e) /\
  (existsb (has_code code) l = true ->
   stored_entries (fst (RedirectShortUrl l code ls)) = Some (updatedUrls l code)).
Proof.
  clear URL_parses origin iso.
  split; [|split; [|split; [|split; [|split]]]].
  - unfold updatedUrls. apply length_map.
  - unfold updatedUrls. rewrite map_map. apply map_ext.
    intros e. by destruct (has_code code e).
  - intros i e Hi Hcode. rewrite updatedUrls_lookup, Hi. simpl.
    by rewrite (proj2 (has_code_false _ _) Hcode).
  - intros i e Hi Hcode Hrange. rewrite updatedUrls_lookup, Hi. simpl.
    by rewrite (proj2 (has_code_true _ _) Hcode), click_exact.
  - intros i e Hi Hcode Hfull. rewrite updatedUrls_lookup, Hi. simpl.
    rewrite (proj2 (has_code_true _ _) Hcode), click_with_clicks, Hfull.
    replace (js_add (2 ^ 53) 1) with (2 ^ 53) by (by vm_compute).
    rewrite <- Hfull. by rewrite with_clicks_same.
  - intros Hsome. rewrite find_existsb in Hsome. unfold RedirectShortUrl.
    destruct (find (has_code code) l); [|done]. apply stored_entries_written.
Qed.

(** X2. What the redirect view shows agrees with what its effect does: the
    redirecting notice is shown exactly when some entry has the code, and
    then the effect sets the location to the original URL of an entry with
    that code; otherwise the not-found notice is shown, the record is left as
    it is and the navigation home is scheduled. *)
Theorem redirect_notice_matches_effect l code ls :
  (RedirectShortUrl_view l code = Redirecting <->
   exists e, e ∈ l /\ shortcode e = code) /\
  (RedirectShortUrl_view l code = Redirecting ->
   exists e, e ∈ l /\ shortcode e = code /\
             RedirectShortUrl l code ls =
               (setStoredUrls (updatedUrls l code), SetHref (originalUrl e))) /\
  (RedirectShortUrl_view l code = ShortUrlNotFound ->
   RedirectShortUrl l code ls = (ls, NavigateAfter 3000 "/")).
Proof.
  unfold RedirectShortUrl_view, RedirectShortUrl.
  rewrite find_existsb.
  destruct (find (has_code code) l) as [found|] eqn:Hfind.
  - apply find_some in Hfind as [Hin Hcode].
    apply list_elem_of_In in Hin. apply has_code_true in Hcode.
    split; [|split]; [split|..]; try done; eauto.
  - split; [|split]; [split|..]; try done.
    intros (e & Hin & Hcode).
    apply list_elem_of_In in Hin.
    apply (find_none _ _ Hfind) in Hin. apply has_code_false in Hin. done.
Qed.

(** ** Further properties of validation *)

Lemma put_lookup_Some st input idx f m k msg :
  put st input idx f m !! k = Some msg ->
  m !! k = Some msg \/
  (k = key (field_name f) idx /\ row_error st f input idx = Some msg).
Proof.
  unfold put. destruct (row_error st f input idx) as [msg'|]; [|by left].
  rewrite lookup_insert. case_decide as Hk; [|by left].
  intros [= ->]. by right.
Qed.

Lemma forEach_validate_Some st xs i acc k msg :
  forEach_from (validate_row st) i xs acc !! k = Some msg ->
  acc !! k = Some msg \/
  exists f j input,
    k = key (field_name f) (i + j) /\ xs !! j = Some input /\
    row_error st f input (i + j) = Some msg.
Proof.
  revert i acc. induction xs as [|x xs IH]; intros i acc; simpl; [by left|].
  intros [Hrow|(f & j & input & -> & Hj & Herr)]%IH.
  - rewrite validate_row_put in Hrow.
    apply put_lookup_Some in Hrow as [Hrow|[-> Herr]].
    + apply put_lookup_Some in Hrow as [Hrow|[-> Herr]].
      * apply put_lookup_Some in Hrow as [Hrow|[-> Herr]]; [by left|].
        right. exists Furl, 0%nat, x. by rewrite Nat.add_0_r.
      * right. exists Fvalidity, 0%nat, x. by rewrite Nat.add_0_r.
    + right. exists Fshortcode, 0%nat, x. by rewrite Nat.add_0_r.
  - right. exists f, (S j), input. by rewrite <- Nat.add_succ_comm.
Qed.

Lemma newErrors_all_clean st :
  (forall j input f, inputs st !! j = Some input -> row_error st f input j = None) ->
  newErrors st = ∅.
Proof.
  intros Hclean. apply map_eq. intros k. rewrite lookup_empty.
  destruct (newErrors st !! k) as [msg|] eqn:Hk; [|done].
  unfold newErrors in Hk.
  apply forEach_validate_Some in Hk as [Hk|(f & j & input & _ & Hj & Herr)].
  - by rewrite lookup_empty in Hk.
  - simpl in Herr. by rewrite (Hclean j input f Hj) in Herr.
Qed.

(** X3. The error bag holds a message under a key exactly when the key is
    the one of a field of an existing row and that row, which then has a
    URL, fails the check of that field with this message; so the bag has no
    other keys, and every message is one of the four texts of the form. *)
Theorem newErrors_content st k msg :
  newErrors st !! k = Some msg <->
  exists f j input,
    k = key (field_name f) j /\ inputs st !! j = Some input /\
    Input.url input <> "" /\
    row_error st f input j = Some msg /\
    (msg = "Invalid URL" \/ msg = "Must be a positive number" \/
     msg = "3-10 alphanumeric chars" \/ msg = "This code is already taken").
Proof.
  split.
  - intros Hk. unfold newErrors in Hk.
    apply forEach_validate_Some in Hk as [Hk|(f & j & input & -> & Hj & Herr)];
      [by rewrite lookup_empty in Hk|].
    simpl in *. exists f, j, input. do 2 (split; [done|]).
    unfold row_error in Herr |- *.
    destruct (truthy (Input.url input)) eqn:Hurl; [|done].
    split; [by apply truthy_true|]. split; [done|].
    destruct f.
    + destruct (isValidUrl _); [done|]. injection Herr as <-. auto.
    + destruct (truthy (Input.validity input) && _); [|done]. injection Herr as <-. auto.
    + destruct (truthy (Input.shortcode input)); [|done].
      destruct (isValidShortcode _); [|injection Herr as <-; auto].
      destruct (isShortcodeUnique _ _ _); [done|]. injection Herr as <-. auto.
  - intros (f & j & input & -> & Hj & _ & Herr & _).
    by rewrite newErrors_lookup, Hj.
Qed.

(** X4. Validation passes exactly when every row with a URL has a URL that
    parses, a validity that is empty or a positive decimal number, and a
    shortcode that is empty or well formed and not taken; rows without a URL
    are not looked at. *)
Theorem validation_passes_iff st :
  snd (validateInputs st) = true <->
  forall j input,
    inputs st !! j = Some input ->
    Input.url input <> "" ->
    isValidUrl (Input.url input) = true /\
    (Input.validity input = "" \/
     (test_digits (Input.validity input) = true /\ 0 < parseInt (Input.validity input))) /\
    (Input.shortcode input = "" \/
     (isValidShortcode (Input.shortcode input) = true /\
      isShortcodeUnique st (Input.shortcode input) (Z.of_nat j) = true)).
Proof.
  unfold validateInputs. simpl. rewrite bool_decide_eq_true. split.
  - intros Hok j input Hj Hurl.
    pose proof (newErrors_clean st j input Furl Hok Hj) as Hu.
    pose proof (newErrors_clean st j input Fvalidity Hok Hj) as Hv.
    pose proof (newErrors_clean st j input Fshortcode Hok Hj) as Hs.
    unfold row_error in Hu, Hv, Hs.
    apply truthy_true in Hurl. rewrite Hurl in Hu, Hv, Hs.
    split; [by destruct (isValidUrl _)|]. split.
    + destruct (Input.validity input) as [|c v] eqn:Hval; [by left|right].
      simpl in Hv.
      destruct (test_digits (String c v)); simpl in Hv; [|done].
      destruct (Z.leb_spec (parseInt (String c v)) 0); [done|]. split; [done|lia].
    + destruct (Input.shortcode input) as [|c v] eqn:Hcode; [by left|right].
      simpl in Hs.
      destruct (isValidShortcode (String c v)); [|done].
      by destruct (isShortcodeUnique st (String c v) (Z.of_nat j)).
  - intros Hrows. apply newErrors_all_clean. intros j input f Hj.
    unfold row_error.
    destruct (truthy (Input.url input)) eqn:Hurl; [|done].
    destruct (Hrows j input Hj) as (Hu & Hv & Hs); [by apply truthy_true|].
    destruct f.
    + by rewrite Hu.
    + destruct Hv as [->|[Hd Hp]]; [done|].
      rewrite Hd. simpl.
      destruct (Z.leb_spec (parseInt (Input.validity input)) 0); [lia|].
      by rewrite andb_false_r.
    + destruct Hs as [->|[Hf Hq]]; [done|].
      rewrite Hf, Hq. by destruct (truthy (Input.shortcode input)).
Qed.

(** ** Further properties of [handleShorten] *)

Lemma isShortcodeUnique_ext st st' code cur :
  inputs st = inputs st' -> shortenedUrls st = shortenedUrls st' ->
  isShortcodeUnique st code cur = isShortcodeUnique st' code cur.
Proof. unfold isShortcodeUnique. by intros -> ->. Qed.

Lemma forEach_from_ext {A B} (f g : A -> nat -> B -> B) i xs acc :
  (forall x j a, f x j a = g x j a) ->
  forEach_from f i xs acc = forEach_from g i xs acc.
Proof.
  intros Hfg. revert i acc. induction xs as [|x xs IH]; intros i acc; simpl; [done|].
  by rewrite Hfg, IH.
Qed.

Lemma newErrors_ext st st' :
  inputs st = inputs st' -> shortenedUrls st = shortenedUrls st' ->
  newErrors st = newErrors st'.
Proof.
  intros Hin Hst. unfold newErrors. rewrite <- Hin.
  apply forEach_from_ext. intros x j a. unfold validate_row.
  by rewrite (isShortcodeUnique_ext st st' _ _ Hin Hst).
Qed.

Lemma generateShortCode_ext st st' draws :
  inputs st = inputs st' -> shortenedUrls st = shortenedUrls st' ->
  generateShortCode st draws = generateShortCode st' draws.
Proof.
  intros Hin Hst. induction draws as [|r draws IH]; simpl; [done|].
  by rewrite (isShortcodeUnique_ext st st' _ _ Hin Hst), IH.
Qed.

(** X5. Validation reads the rows and the list of entries only, not the
    error bag or the success message: submitting a rejected batch again,
    at any time and with any draws, is rejected with the same error bag and
    leaves the same state. *)
Theorem rejection_is_idempotent now w draws now' draws' :
  newErrors (ui w) <> ∅ ->
  handleShorten now w draws = Returns (rejected w, draws) /\
  newErrors (ui (rejected w)) = newErrors (ui w) /\
  handleShorten now' (rejected w) draws' = Returns (rejected w, draws').
Proof.
  intros Herr.
  assert (newErrors (ui (rejected w)) = newErrors (ui w)) as Hsame
    by (by apply newErrors_ext).
  split; [by apply handleShorten_invalid|]. split; [done|].
  rewrite handleShorten_invalid by (by rewrite Hsame).
  reflexivity.
Qed.

(** X6. A code that an entry of the list already carries cannot be used
    again: a row with a URL and that code makes the batch fail, with the
    taken message when the code is well formed, and nothing is written. *)
Theorem stored_code_is_taken now w draws j rj e :
  e ∈ shortenedUrls (ui w) ->
  inputs (ui w) !! j = Some rj ->
  Input.url rj <> "" ->
  Input.shortcode rj <> "" ->
  Input.shortcode rj = shortcode e ->
  handleShorten now w draws = Returns (rejected w, draws) /\
  (isValidShortcode (Input.shortcode rj) = true ->
   newErrors (ui w) !! key "shortcode" j = Some "This code is already taken").
Proof.
  intros He Hj Hurl Hcode Hsame.
  assert (isShortcodeUnique (ui w) (Input.shortcode rj) (Z.of_nat j) = false) as Htaken.
  { apply not_true_iff_false. intros [Hstore _]%isShortcodeUnique_true.
    by apply (Hstore e). }
  assert (exists msg, row_error (ui w) Fshortcode rj j = Some msg /\
            (isValidShortcode (Input.shortcode rj) = true ->
             msg = "This code is already taken")) as (msg & Hmsg & Hwhich).
  { unfold row_error. apply truthy_true in Hurl, Hcode. rewrite Hurl, Hcode, Htaken.
    destruct (isValidShortcode (Input.shortcode rj)); [by eexists|].
    eexists. split; [done|]. intros [=]. }
  split.
  - apply handleShorten_invalid. by eapply newErrors_dirty.
  - intros Hfmt. change "shortcode" with (field_name Fshortcode).
    rewrite newErrors_lookup, Hj. simpl. by rewrite Hmsg, Hwhich.
Qed.

Lemma filter_no_urls (rows : list Input.t) :
  Forall (fun input => Input.url input = "") rows ->
  filter (fun input => truthy (Input.url input)) rows = [].
Proof.
  induction 1 as [|input rows Hurl _ IH]; [done|].
  rewrite filter_cons_False; [done|]. rewrite Hurl. simpl. auto.
Qed.

Lemma handleShorten_no_urls now w draws :
  Forall (fun input => Input.url input = "") (inputs (ui w)) ->
  handleShorten now w draws =
    Returns ({| ui := {| inputs := inputs (ui w);
                         shortenedUrls := shortenedUrls (ui w);
                         errors := ∅;
                         successMessage := successMessage (ui w) |};
                localStorage := localStorage w |}, draws).
Proof.
  intros Hrows.
  assert (newErrors (ui w) = ∅) as Hok.
  { apply newErrors_all_clean. intros j input f Hj. unfold row_error.
    rewrite Forall_lookup in Hrows. by rewrite (Hrows j input Hj). }
  unfold handleShorten, validateInputs. rewrite bool_decide_eq_true_2 by done. simpl.
  unfold bind, newShortened. rewrite (filter_no_urls _ Hrows). simpl. by rewrite Hok.
Qed.

(** X7. When no row has a URL, [handleShorten] creates nothing and writes
    nothing, whatever the validity and shortcode fields hold: the entries,
    the rows, the success message and the record stay, only the error bag is
    emptied, and no draw is used. *)
Theorem batch_without_urls_is_ignored now w draws :
  Forall (fun input => Input.url input = "") (inputs (ui w)) ->
  exists w',
    handleShorten now w draws = Returns (w', draws) /\
    localStorage w' = localStorage w /\
    shortenedUrls (ui w') = shortenedUrls (ui w) /\
    inputs (ui w') = inputs (ui w) /\
    successMessage (ui w') = successMessage (ui w) /\
    errors (ui w') = ∅.
Proof.
  intros Hrows. eexists. split; [by apply handleShorten_no_urls|]. done.
Qed.

Lemma shorten_row_in_range st now input draws e rest :
  shorten_row st now input draws = Returns (e, rest) -> in_range now input = true.
Proof.
  unfold shorten_row, bind, lift, ret, in_range, minutes, toISOString.
  destruct (if truthy (Input.shortcode input) then _ else _) as [[code d1]| |];
    simpl; try done.
  destruct (Z.abs now <=? 8640000000000000); simpl; [|done].
  by destruct (Z.abs (now + _ * 60000) <=? 8640000000000000).
Qed.

Lemma shorten_row_explicit st now input draws :
  truthy (Input.shortcode input) = true ->
  shorten_row st now input draws =
    if in_range now input then Returns (entry_of now input, draws) else Throws RangeError.
Proof.
  intros Hcode.
  unfold shorten_row, bind, lift, ret, in_range, entry_of, minutes, toISOString.
  rewrite Hcode. simpl.
  destruct (Z.abs now <=? 8640000000000000); simpl; [|done].
  by destruct (Z.abs (now + _ * 60000) <=? 8640000000000000).
Qed.

Lemma mapM_explicit st now rows draws :
  Forall (fun input => truthy (Input.shortcode input) = true) rows ->
  mapM (shorten_row st now) rows draws =
    if forallb (in_range now) rows then Returns (map (entry_of now) rows, draws)
    else Throws RangeError.
Proof.
  induction 1 as [|input rows Hcode _ IH]; simpl; [done|].
  unfold bind at 1. rewrite shorten_row_explicit by done.
  destruct (in_range now input); simpl; [|done].
  unfold bind at 1. rewrite IH.
  by destruct (forallb (in_range now) rows).
Qed.

Lemma shorten_row_built st now input draws e rest :
  shorten_row st now input draws = Returns (e, rest) -> built_from st input e.
Proof.
  intros (Horig & _ & _ & _ & _ & Hcode)%shorten_row_returns.
  split; [done|].
  destruct (truthy (Input.shortcode input)); [by destruct Hcode|].
  by apply generateShortCode_fresh in Hcode.
Qed.

Lemma newShortened_built st now draws created rest :
  newShortened st now draws = Returns (created, rest) ->
  Forall2 (built_from st) (filter (fun input => truthy (Input.url input)) (inputs st)) created.
Proof.
  intros Hnew%mapM_returns.
  eapply Forall2_impl; [exact Hnew|].
  intros input e (d1 & d2 & Hrow). by eapply shorten_row_built.
Qed.

Lemma handleShorten_created now w draws e created rest :
  newErrors (ui w) = ∅ ->
  newShortened (ui w) now draws = Returns (e :: created, rest) ->
  handleShorten now w draws =
    Returns
      ({| ui := {| inputs := replicate 5 Input.blank;
                   shortenedUrls := (shortenedUrls (ui w) ++ e :: created)%list;
                   errors := ∅;
                   successMessage :=
                     pretty (length (e :: created)) +:+ " URL(s) successfully shortened!" |};
          localStorage := setStoredUrls (shortenedUrls (ui w) ++ e :: created) |},
       rest).
Proof.
  intros Hok Hnew. unfold handleShorten, validateInputs.
  rewrite bool_decide_eq_true_2 by done. simpl.
  unfold bind at 1. by rewrite Hnew.
Qed.

(** X8. After a batch that passed validation and had at least one row with
    a URL, the form is back to five blank rows with no errors, the success
    message counts the rows that had a URL, and the record holds the list of
    entries; pressing the button again then changes nothing and creates no
    second copy. *)
Theorem submit_twice_creates_once now w draws w' rest now' draws' :
  newErrors (ui w) = ∅ ->
  handleShorten now w draws = Returns (w', rest) ->
  (exists input, input ∈ inputs (ui w) /\ Input.url input <> "") ->
  inputs (ui w') = replicate 5 Input.blank /\
  errors (ui w') = ∅ /\
  successMessage (ui w') =
    pretty (length (filter (fun input => truthy (Input.url input)) (inputs (ui w))))
      +:+ " URL(s) successfully shortened!" /\
  localStorage w' = setStoredUrls (shortenedUrls (ui w')) /\
  handleShorten now' w' draws' = Returns (w', draws').
Proof.
  intros Hok Hrun (input & Hin & Hurl).
  destruct (handleShorten_valid now w draws w' rest Hok Hrun) as (created & Hnew & _).
  pose proof (mapM_returns _ _ _ _ _ Hnew) as Hlen%Forall2_length.
  destruct created as [|e created].
  { assert (input ∈ filter (fun input => truthy (Input.url input)) (inputs (ui w))) as Hsub.
    { apply list_elem_of_filter. split; [|done].
      apply Is_true_true. by apply truthy_true. }
    destruct (filter _ (inputs (ui w))); [by apply elem_of_nil in Hsub|done]. }
  rewrite (handleShorten_created now w draws e created rest Hok Hnew) in Hrun.
  injection Hrun as <-. simpl.
  do 2 (split; [done|]). split; [by rewrite Hlen|]. split; [done|].
  rewrite handleShorten_no_urls; [done|].
  simpl. by repeat constructor.
Qed.

(** ** Shortcodes of the created entries *)

Lemma validated_code st j input :
  newErrors st = ∅ ->
  inputs st !! j = Some input ->
  Input.url input <> "" ->
  truthy (Input.shortcode input) = true ->
  isValidShortcode (Input.shortcode input) = true /\
  (forall x, x ∈ shortenedUrls st -> shortcode x <> Input.shortcode input) /\
  (forall k r, inputs st !! k = Some r -> k <> j ->
               Input.shortcode r <> Input.shortcode input).
Proof.
  intros Hok Hj Hurl Hcode.
  pose proof (newErrors_clean st j input Fshortcode Hok Hj) as Hrow.
  unfold row_error in Hrow. apply truthy_true in Hurl. rewrite Hurl, Hcode in Hrow.
  destruct (isValidShortcode (Input.shortcode input)); [|done].
  destruct (isShortcodeUnique st (Input.shortcode input) (Z.of_nat j)) eqn:Hu; [|done].
  apply isShortcodeUnique_true in Hu as [Hstore Hrows].
  split; [done|]. split; [done|].
  intros k r Hk Hkj. apply (Hrows k r Hk). lia.
Qed.

Lemma NoDup_codes_of_rows (P : Input.t -> Prop) `{!forall x, Decision (P x)}
    (rows : list Input.t) :
  (forall i j x y, rows !! i = Some x -> rows !! j = Some y -> i <> j ->
                   P x -> P y -> Input.shortcode x <> Input.shortcode y) ->
  NoDup (map Input.shortcode (filter P rows)).
Proof.
  induction rows as [|x rows IH]; intros Hpair; [constructor|].
  assert (NoDup (map Input.shortcode (filter P rows))) as Hrest.
  { apply IH. intros i j a b Hi Hj Hij. apply (Hpair (S i) (S j)); simpl; auto. }
  rewrite filter_cons. destruct (decide (P x)) as [Hx|Hx]; [|done].
  simpl. apply NoDup_cons. split; [|done].
  intros (y & Hxy & [Hy (k & Hk)%list_elem_of_lookup]%list_elem_of_filter)%list_elem_of_fmap.
  by apply (Hpair 0%nat (S k) x y).
Qed.

Lemma built_codes_NoDup st rows created :
  Forall2 (built_from st) rows created ->
  Forall (fun r => r ∈ inputs st) rows ->
  NoDup (map Input.shortcode (filter (fun r => truthy (Input.shortcode r)) rows)) ->
  (length (filter (fun r => truthy (Input.shortcode r) = false) rows) <= 1)%nat ->
  NoDup (map shortcode created).
Proof.
  induction 1 as [|r e rs es [_ Hre] Hrest IH]; intros Hin Hexplicit Hone;
    [constructor|].
  apply Forall_cons in Hin as [Hr Hrs].
  simpl. apply NoDup_cons. split.
  - intros (e' & Hcode & He')%list_elem_of_fmap.
    apply Forall2_codomain in Hrest. rewrite Forall_forall in Hrest.
    destruct (Hrest e' He') as (r' & Hr' & _ & Hre').
    rewrite Forall_forall in Hrs. specialize (Hrs r' Hr').
    apply list_elem_of_lookup in Hr as [k Hk], Hrs as [k' Hk'].
    destruct (truthy (Input.shortcode r)) eqn:Hc, (truthy (Input.shortcode r')) eqn:Hc'.
    + rewrite filter_cons_True in Hexplicit by (by rewrite Hc).
      simpl in Hexplicit. apply NoDup_cons in Hexplicit as [Hfresh _].
      apply Hfresh, list_elem_of_fmap. exists r'. split; [congruence|].
      apply list_elem_of_filter. split; [by rewrite Hc'|done].
    + destruct Hre' as [_ Hrows]. apply (Hrows k r Hk). congruence.
    + destruct Hre as [_ Hrows]. apply (Hrows k' r' Hk'). congruence.
    + rewrite filter_cons_True in Hone by done. simpl in Hone.
      assert (r' ∈ filter (fun r => truthy (Input.shortcode r) = false) rs) as Hr2
        by (by apply list_elem_of_filter).
      destruct (filter (fun r => truthy (Input.shortcode r) = false) rs);
        [by apply elem_of_nil in Hr2|simpl in Hone; lia].
  - apply IH; [done|..].
    + rewrite filter_cons in Hexplicit. destruct (decide _); [|done].
      simpl in Hexplicit. by apply NoDup_cons in Hexplicit as [_ ?].
    + rewrite filter_cons in Hone. destruct (decide _); simpl in Hone; lia.
Qed.

Lemma submitted_rows_known st :
  Forall (fun r => r ∈ inputs st) (filter (fun input => truthy (Input.url input)) (inputs st)).
Proof. apply Forall_forall. by intros r [_ Hr]%list_elem_of_filter. Qed.

Lemma created_code_not_stored st rows created :
  newErrors st = ∅ ->
  Forall2 (built_from st) rows created ->
  Forall (fun r => r ∈ inputs st /\ Input.url r <> "") rows ->
  forall e x, e ∈ created -> x ∈ shortenedUrls st -> shortcode x <> shortcode e.
Proof.
  intros Hok Hbuilt Hrows e x He Hx.
  apply Forall2_codomain in Hbuilt. rewrite Forall_forall in Hbuilt.
  destruct (Hbuilt e He) as (r & Hr & _ & Hre).
  rewrite Forall_forall in Hrows. destruct (Hrows r Hr) as [[j Hj]%list_elem_of_lookup Hurl].
  destruct (truthy (Input.shortcode r)) eqn:Hc.
  - rewrite Hre. by apply (validated_code st j r).
  - by apply Hre.
Qed.

Lemma submitted_rows_have_url st :
  Forall (fun r => r ∈ inputs st /\ Input.url r <> "")
         (filter (fun input => truthy (Input.url input)) (inputs st)).
Proof.
  apply Forall_forall. intros r [Hurl Hr]%list_elem_of_filter. split; [done|].
  apply truthy_true. by apply Is_true_true.
Qed.

(** X9. Shortcode uniqueness is kept by a batch in which at most one row
    with a URL leaves the code to the generator: when no code occurs twice
    in the list before a successful [handleShorten], none does after it. *)
Theorem unique_shortcodes_kept now w draws w' rest :
  NoDup (map shortcode (shortenedUrls (ui w))) ->
  newErrors (ui w) = ∅ ->
  handleShorten now w draws = Returns (w', rest) ->
  (length (filter (fun r => truthy (Input.shortcode r) = false)
             (filter (fun input => truthy (Input.url input)) (inputs (ui w)))) <= 1)%nat ->
  NoDup (map shortcode (shortenedUrls (ui w'))).
Proof.
  intros Hold Hok Hrun Hone.
  destruct (handleShorten_valid now w draws w' rest Hok Hrun) as (created & Hnew & -> & _).
  apply newShortened_built in Hnew.
  rewrite map_app. apply NoDup_app. split; [done|]. split.
  - intros c (x & -> & Hx)%list_elem_of_fmap (e & Hc & He)%list_elem_of_fmap.
    by apply (created_code_not_stored (ui w) _ created Hok Hnew
                (submitted_rows_have_url (ui w)) e x).
  - apply (built_codes_NoDup (ui w) _ created Hnew (submitted_rows_known (ui w))); [|done].
    rewrite list_filter_filter.
    apply NoDup_codes_of_rows.
    intros i j x y Hi Hj Hij [Hcx Hux] [Hcy Huy].
    apply not_eq_sym.
    destruct (validated_code (ui w) i x Hok Hi) as (_ & _ & Hrows).
    + apply truthy_true. by apply Is_true_true.
    + by apply Is_true_true.
    + apply (Hrows j y Hj). auto.
Qed.

(** X10. A row that brings its own shortcode can be visited right after a
    successful submission: resolving that code over the new list shows the
    redirecting notice and sets the location to the URL typed in that row,
    whatever else was in the batch or in the list. *)
Theorem custom_code_resolves now w draws w' rest j rj ls :
  newErrors (ui w) = ∅ ->
  handleShorten now w draws = Returns (w', rest) ->
  inputs (ui w) !! j = Some rj ->
  Input.url rj <> "" ->
  Input.shortcode rj <> "" ->
  RedirectShortUrl_view (shortenedUrls (ui w')) (Input.shortcode rj) = Redirecting /\
  RedirectShortUrl (shortenedUrls (ui w')) (Input.shortcode rj) ls =
    (setStoredUrls (updatedUrls (shortenedUrls (ui w')) (Input.shortcode rj)),
     SetHref (Input.url rj)).
Proof.
  intros Hok Hrun Hj Hurl Hcode.
  destruct (handleShorten_valid now w draws w' rest Hok Hrun) as (created & Hnew & -> & _).
  apply newShortened_built in Hnew.
  apply truthy_true in Hcode.
  destruct (validated_code (ui w) j rj Hok Hj Hurl Hcode) as (_ & Hstore & Hrows).
  assert (filter (fun input => truthy (Input.url input)) (inputs (ui w)) =
          (filter (fun input => truthy (Input.url input)) (take j (inputs (ui w))) ++
           rj :: filter (fun input => truthy (Input.url input))
                   (drop (S j) (inputs (ui w))))%list) as Hsplit.
  { rewrite <- (take_drop_middle _ j rj Hj) at 1.
    rewrite filter_app, filter_cons_True; [done|].
    apply Is_true_true. by apply truthy_true. }
  rewrite Hsplit in Hnew.
  apply Forall2_app_inv_l in Hnew as (es1 & es' & Hes1 & Hes' & ->).
  apply Forall2_cons_inv_l in Hes' as (e & es2 & [Horig He] & _ & ->).
  rewrite Hcode in He.
  assert (forall x, x ∈ (shortenedUrls (ui w) ++ es1)%list ->
                    shortcode x <> Input.shortcode rj) as Hbefore.
  { intros x [Hx|Hx]%elem_of_app; [by apply Hstore|].
    apply Forall2_codomain in Hes1. rewrite Forall_forall in Hes1.
    destruct (Hes1 x Hx) as (r & [_ (k & Hk & Hlt)%elem_of_take]%list_elem_of_filter
                             & _ & Hbuilt).
    destruct (truthy (Input.shortcode r)).
    - rewrite Hbuilt. apply (Hrows k r Hk). lia.
    - destruct Hbuilt as [_ Hfresh]. apply not_eq_sym. by apply (Hfresh j rj). }
  destruct (find_first (Input.shortcode rj) (shortenedUrls (ui w) ++ es1) es2 e Hbefore He)
    as [Hfind Hsome].
  rewrite <- app_assoc in Hfind, Hsome.
  unfold RedirectShortUrl_view, RedirectShortUrl.
  by rewrite Hfind, Hsome, Horig.
Qed.

(** X11. Every entry that a successful submission adds has a URL and a
    shortcode that are not empty, and a shortcode of at most ten characters:
    a draw whose candidate is empty is never accepted, because the row that
    needs the code has itself an empty shortcode field, which counts as
    taken. *)
Theorem created_codes_not_empty now w draws w' rest :
  newErrors (ui w) = ∅ ->
  handleShorten now w draws = Returns (w', rest) ->
  exists created,
    shortenedUrls (ui w') = (shortenedUrls (ui w) ++ created)%list /\
    Forall (fun e => originalUrl e <> "" /\ shortcode e <> "" /\
                     (String.length (shortcode e) <= 10)%nat) created.
Proof.
  intros Hok Hrun.
  destruct (handleShorten_valid now w draws w' rest Hok Hrun) as (created & Hnew & Hlist & _).
  exists created. split; [done|].
  apply mapM_returns, Forall2_codomain in Hnew.
  eapply Forall_impl; [exact Hnew|].
  intros e (r & [Hurl [j Hj]]%submitted_row & d1 & d2 & Hrow).
  apply shorten_row_returns in Hrow as (Horig & _ & _ & _ & _ & Hcode).
  split; [by rewrite Horig|].
  destruct (truthy (Input.shortcode r)) eqn:Hc.
  - destruct Hcode as [-> _].
    destruct (validated_code (ui w) j r Hok Hj Hurl Hc) as (Hfmt & _).
    split; [by apply truthy_true|].
    unfold isValidShortcode in Hfmt.
    apply andb_true_iff in Hfmt as [_ [_ Hlen%Nat.leb_le]%andb_true_iff]. done.
  - pose proof (generateShortCode_fresh _ _ _ _ Hcode) as [_ Hrows].
    apply generateShortCode_returns in Hcode as (_ & rendering & _ & Hcand & _).
    split.
    + intros Hempty. apply (Hrows j r Hj). rewrite Hempty. by destruct (Input.shortcode r).
    + rewrite Hcand. pose proof (candidate_length rendering). lia.
Qed.

(** X12. A batch that passed validation and whose rows with a URL all bring
    their own shortcode uses no random draw: when the creation and expiry
    times are in the range of [Date], [handleShorten] returns, and the new
    entries are exactly the rows with a URL, in order, each with the row's
    URL and code. *)
Theorem batch_with_own_codes_returns now w draws :
  newErrors (ui w) = ∅ ->
  Forall (fun r => Input.url r <> "" -> Input.shortcode r <> "") (inputs (ui w)) ->
  Forall (fun r => Input.url r <> "" -> in_range now r = true) (inputs (ui w)) ->
  exists w',
    handleShorten now w draws = Returns (w', draws) /\
    shortenedUrls (ui w') =
      (shortenedUrls (ui w) ++
       map (entry_of now) (filter (fun input => truthy (Input.url input)) (inputs (ui w))))%list.
Proof.
  intros Hok Hcodes Hrange.
  set (rows := filter (fun input => truthy (Input.url input)) (inputs (ui w))).
  assert (newShortened (ui w) now draws = Returns (map (entry_of now) rows, draws)) as Hnew.
  { unfold newShortened. fold rows. rewrite mapM_explicit.
    - assert (forallb (in_range now) rows = true) as ->; [|done].
      apply forallb_forall. intros r [Hurl Hr]%list_elem_of_In%list_elem_of_filter.
      rewrite Forall_forall in Hrange. apply (Hrange r Hr).
      apply truthy_true. by apply Is_true_true.
    - apply Forall_forall. intros r [Hurl Hr]%list_elem_of_filter.
      rewrite Forall_forall in Hcodes. apply truthy_true, (Hcodes r Hr).
      apply truthy_true. by apply Is_true_true. }
  destruct (map (entry_of now) rows) as [|e created] eqn:Hrows.
  - eexists. split.
    + unfold handleShorten, validateInputs. rewrite bool_decide_eq_true_2 by done. simpl.
      unfold bind at 1. rewrite Hnew. simpl. reflexivity.
    + simpl. by rewrite app_nil_r.
  - eexists. split; [by apply handleShorten_created|done].
Qed.

(** X13. Validation puts no upper bound on the validity: when a row with a
    URL has an expiry beyond the last time value of [Date] (8.64e15 ms), a
    batch that passed validation never returns from [handleShorten], and when
    all rows with a URL bring their own code it throws the [RangeError] of
    [toISOString]; nothing is created. *)
Theorem expiry_out_of_range_throws now w draws r :
  newErrors (ui w) = ∅ ->
  0 <= now ->
  r ∈ inputs (ui w) ->
  Input.url r <> "" ->
  8640000000000000 < now + minutes r * 60000 ->
  (forall w' rest, handleShorten now w draws <> Returns (w', rest)) /\
  (Forall (fun r => Input.url r <> "" -> Input.shortcode r <> "") (inputs (ui w)) ->
   handleShorten now w draws = Throws RangeError).
Proof.
  intros Hok Hnow Hr Hurl Hlate.
  assert (in_range now r = false) as Hout.
  { unfold in_range. apply andb_false_iff. right. apply Z.leb_gt. lia. }
  assert (r ∈ filter (fun input => truthy (Input.url input)) (inputs (ui w))) as Hsub.
  { apply list_elem_of_filter. split; [|done]. apply Is_true_true. by apply truthy_true. }
  split.
  - intros w' rest Hrun.
    destruct (handleShorten_valid now w draws w' rest Hok Hrun) as (created & Hnew & _).
    apply mapM_returns in Hnew.
    apply list_elem_of_lookup in Hsub as [i Hi].
    destruct (Forall2_lookup_l _ _ _ _ _ Hnew Hi) as (e & _ & d1 & d2 & Hrow).
    apply shorten_row_in_range in Hrow. congruence.
  - intros Hcodes.
    unfold handleShorten, validateInputs. rewrite bool_decide_eq_true_2 by done. simpl.
    unfold bind at 1. unfold newShortened. rewrite mapM_explicit.
    + assert (forallb (in_range now)
                (filter (fun input => truthy (Input.url input)) (inputs (ui w))) = false) as ->;
        [|done].
      apply not_true_iff_false. intros Hall.
      rewrite forallb_forall in Hall.
      apply list_elem_of_In in Hsub. apply Hall in Hsub. congruence.
    + apply Forall_forall. intros x [Hx Hin]%list_elem_of_filter.
      rewrite Forall_forall in Hcodes. apply truthy_true, (Hcodes x Hin).
      apply truthy_true. by apply Is_true_true.
Qed.

(** ** The form and the list of links *)

(** X14. Typing into a field of a row changes that field of that row and
    nothing else: the other two fields of the row, every other row, the list
    of entries and the success message stay, and so does the error bag, so
    the errors of the last submission remain shown until the next one. *)
Theorem typing_changes_one_field index field value st input :
  inputs st !! index = Some input ->
  field = "url" \/ field = "validity" \/ field = "shortcode" ->
  exists st' input',
    handleInputChange index field value st = Some st' /\
    inputs st' !! index = Some input' /\
    (field = "url" ->
     Input.url input' = value /\ Input.validity input' = Input.validity input /\
     Input.shortcode input' = Input.shortcode input) /\
    (field = "validity" ->
     Input.url input' = Input.url input /\ Input.validity input' = value /\
     Input.shortcode input' = Input.shortcode input) /\
    (field = "shortcode" ->
     Input.url input' = Input.url input /\ Input.validity input' = Input.validity input /\
     Input.shortcode input' = value) /\
    (forall k, k <> index -> inputs st' !! k = inputs st !! k) /\
    length (inputs st') = length (inputs st) /\
    shortenedUrls st' = shortenedUrls st /\
    errors st' = errors st /\
    successMessage st' = successMessage st.
Proof.
  intros Hi Hfield. unfold handleInputChange. rewrite Hi.
  eexists _, (set_field input field value). split; [done|]. simpl.
  split; [apply list_lookup_insert_eq; by eapply lookup_lt_Some|].
  split; [by intros ->|]. split; [by intros ->|]. split; [by intros ->|].
  split; [intros k Hk; by apply list_lookup_insert_ne|].
  split; [apply length_insert|done].
Qed.

Lemma row_error_truthy st f input idx msg :
  row_error st f input idx = Some msg -> truthy msg = true.
Proof.
  unfold row_error. destruct (truthy (Input.url input)); [|done].
  destruct f.
  - destruct (isValidUrl _); [done|]. by intros [= <-].
  - destruct (truthy (Input.validity input) && _); [|done]. by intros [= <-].
  - destruct (truthy (Input.shortcode input)); [|done].
    destruct (isValidShortcode _); [|by intros [= <-]].
    destruct (isShortcodeUnique _ _ _); [done|]. by intros [= <-].
Qed.

(** X15. After a rejected submission every message is shown at the field
    that caused it and nowhere else: a text field is marked as in error
    exactly when its row exists and fails the check of that field, and its
    helper text is then the message of that check, the fallback text
    otherwise. *)
Theorem errors_shown_at_their_fields now w draws f j fallback :
  newErrors (ui w) <> ∅ ->
  exists w',
    handleShorten now w draws = Returns (w', draws) /\
    (field_error (ui w') (field_name f) j = true <->
     exists input msg, inputs (ui w) !! j = Some input /\
                       row_error (ui w) f input j = Some msg) /\
    helperText (ui w') (field_name f) j fallback =
      default fallback (input ← inputs (ui w) !! j; row_error (ui w) f input j).
Proof.
  intros Herr. exists (rejected w). split; [by apply handleShorten_invalid|].
  unfold field_error, helperText, rejected. simpl. rewrite newErrors_lookup.
  destruct (inputs (ui w) !! j) as [input|]; simpl.
  - destruct (row_error (ui w) f input j) as [msg|] eqn:Hrow; simpl.
    + rewrite (row_error_truthy _ _ _ _ _ Hrow). split; [|done]. split; eauto.
    + split; [|done]. split; [done|]. intros (x & m & Hx & Hm). congruence.
  - split; [|done]. split; [done|]. by intros (x & m & Hx & Hm).
Qed.

Lemma prefix_empty s : String.prefix "" s = true.
Proof. by destruct s. Qed.

(** X16. In the list of links an entry created under an [http] or [https]
    origin is shown without the scheme: as the host, a slash and the
    shortcode. *)
Theorem created_link_text now w draws w' rest host :
  origin = "http://" +:+ host \/ origin = "https://" +:+ host ->
  newErrors (ui w) = ∅ ->
  handleShorten now w draws = Returns (w', rest) ->
  exists created,
    shortenedUrls (ui w') = (shortenedUrls (ui w) ++ created)%list /\
    Forall (fun e => link_text e = host +:+ "/" +:+ shortcode e) created.
Proof.
  intros Horigin Hok Hrun.
  destruct (handleShorten_valid now w draws w' rest Hok Hrun) as (created & Hnew & Hlist & _).
  exists created. split; [done|].
  apply mapM_returns, Forall2_codomain in Hnew.
  eapply Forall_impl; [exact Hnew|].
  intros e (r & _ & d1 & d2 & Hrow).
  apply shorten_row_returns in Hrow as (_ & Hshort & _).
  unfold link_text. rewrite Hshort.
  destruct Horigin as [Ho|Ho]; rewrite Ho; simpl; by rewrite prefix_empty.
Qed.

(** ** More on the code generator *)

Lemma length_substring_0 m s :
  String.length (substring 0 m s) = Nat.min m (String.length s).
Proof.
  revert m. induction s as [|c s IH]; intros [|m]; simpl; try done.
  by rewrite IH.
Qed.

Lemma is_base36_alnum c : is_base36 c = true -> is_alnum c = true.
Proof.
  unfold is_base36, is_alnum. intros [->| ->]%orb_true_iff; [|done].
  by rewrite orb_true_r.
Qed.

Lemma every_impl (p q : ascii -> bool) s :
  (forall c, p c = true -> q c = true) -> every p s = true -> every q s = true.
Proof.
  intros Hpq. induction s as [|c s IH]; simpl; [done|].
  intros [Hc Hs]%andb_true_iff. by rewrite (Hpq c Hc), IH.
Qed.

(** X17. For a draw whose base-36 text is [0.] followed by digits, the
    candidate is made of the first six digits, or of all of them when there
    are fewer: it has six characters exactly when the text has six digits or
    more, and it is a shortcode that the validator of the form would accept
    exactly when the text has three digits or more. *)
Theorem candidate_of_fraction digits :
  every is_base36 digits = true ->
  candidate ("0." +:+ digits) = substring 0 6 digits /\
  String.length (candidate ("0." +:+ digits)) = Nat.min 6 (String.length digits) /\
  (String.length (candidate ("0." +:+ digits)) = 6%nat <-> (6 <= String.length digits)%nat) /\
  (isValidShortcode (candidate ("0." +:+ digits)) = true <-> (3 <= String.length digits)%nat).
Proof.
  intros Hdigits.
  assert (candidate ("0." +:+ digits) = substring 0 6 digits) as -> by done.
  split; [done|]. rewrite length_substring_0. split; [done|].
  pose proof (Nat.min_spec 6 (String.length digits)) as Hmin.
  split; [lia|].
  unfold isValidShortcode. rewrite length_substring_0.
  rewrite (every_impl _ _ _ is_base36_alnum (every_substring _ 0 6 _ Hdigits)).
  rewrite andb_true_l, andb_true_iff, !Nat.leb_le. lia.
Qed.

(** X18. The loop of the generator returns exactly the candidate of the
    first draw whose candidate is free, after skipping the draws whose
    candidates are taken by an entry or by a row of the form, and hands back
    the draws after it; it is still running when the draws are used up
    exactly when every candidate so far was taken, and it never throws. *)
Theorem generateShortCode_loop st draws :
  (forall code rest,
     generateShortCode st draws = Returns (code, rest) <->
     exists tried rendering,
       draws = (tried ++ rendering :: rest)%list /\
       code = candidate rendering /\
       isShortcodeUnique st code (-1) = true /\
       Forall (fun r => isShortcodeUnique st (candidate r) (-1) = false) tried) /\
  (generateShortCode st draws = Pending <->
   Forall (fun r => isShortcodeUnique st (candidate r) (-1) = false) draws) /\
  (forall e, generateShortCode st draws <> Throws e).
Proof.
  split; [|split].
  - intros code rest. split; [apply generateShortCode_returns|].
    intros (tried & rendering & -> & -> & Hfree & Htried).
    by apply generateShortCode_first_free.
  - apply generateShortCode_pending.
  - intros e. induction draws as [|r draws IH]; simpl; [done|].
    by destruct (isShortcodeUnique st (candidate r) (-1)).
Qed.

(** ** The validity field *)

Lemma digit_value_range c : is_digit c = true -> 0 <= digit_value c <= 9.
Proof.
  unfold is_digit, digit_value. rewrite between_spec.
  change (nat_of_ascii "0") with 48%nat. change (nat_of_ascii "9") with 57%nat. lia.
Qed.

Lemma is_zero_digit_value c : is_zero c = true <-> digit_value c = 0.
Proof.
  unfold is_zero, digit_value. rewrite Ascii.eqb_eq. split; [by intros ->|].
  intros Hc. rewrite <- (ascii_nat_embedding c).
  replace (nat_of_ascii c) with 48%nat by lia. done.
Qed.

Lemma parseInt_from_digits acc s :
  every is_digit s = true ->
  0 <= acc ->
  0 <= parseInt_from acc s /\
  (parseInt_from acc s = 0 <-> acc = 0 /\ every is_zero s = true).
Proof.
  clear URL_parses origin iso.
  revert acc. induction s as [|c s IH]; intros acc Hs Hacc; simpl.
  - split; [done|]. tauto.
  - simpl in Hs. apply andb_true_iff in Hs as [Hc Hs].
    pose proof (digit_value_range c Hc) as Hd.
    destruct (IH (10 * acc + digit_value c) Hs) as [Hpos Hzero]; [lia|].
    split; [done|]. rewrite Hzero, andb_true_iff, is_zero_digit_value.
    split; [intros [? ?]|intros (? & ? & ?)]; repeat split; (done || lia).
Qed.

(** X19. For a row with a URL, the validity is refused exactly when it is
    not empty and either holds a character that is not a decimal digit (a
    sign, a point, a space, a letter) or consists of zeros only; an empty
    validity and any run of digits with a non-zero digit pass. *)
Theorem validity_refused_iff st input j :
  Input.url input <> "" ->
  (row_error st Fvalidity input j = Some "Must be a positive number" <->
   Input.validity input <> "" /\
   (every is_digit (Input.validity input) = false \/
    every is_zero (Input.validity input) = true)) /\
  (row_error st Fvalidity input j = None <->
   Input.validity input = "" \/
   (every is_digit (Input.validity input) = true /\
    every is_zero (Input.validity input) = false)).
Proof.
  intros Hurl%truthy_true. unfold row_error, test_digits. rewrite Hurl.
  destruct (Input.validity input) as [|c v] eqn:Hv.
  { cbn [truthy andb]. split; split; try done; [by intros [? _]|by left]. }
  rewrite <- Hv. assert (truthy (Input.validity input) = true) as -> by (by rewrite Hv).
  assert (Input.validity input <> "") as Hne by (by rewrite Hv).
  rewrite !andb_true_l.
  destruct (every is_digit (Input.validity input)) eqn:Hd; cbn [negb orb].
  - destruct (parseInt_from_digits 0 _ Hd) as [Hpos Hzero]; [lia|].
    destruct (round_to_double_sign (parseInt_from 0 (Input.validity input)))
      as [Hsign_pos Hsign_neg].
    fold (parseInt (Input.validity input)) in Hsign_pos, Hsign_neg.
    destruct (Z.leb_spec (parseInt (Input.validity input)) 0) as [Hle|Hgt].
    + assert (every is_zero (Input.validity input) = true) as Hz by (apply Hzero; lia).
      rewrite Hz. split; split; try done; [by auto|by intros [?|[_ ?]]].
    + assert (every is_zero (Input.validity input) = false) as Hz.
      { apply not_true_iff_false. intros Hz. destruct Hzero as [_ Hzero].
        specialize (Hzero (conj eq_refl Hz)). lia. }
      rewrite Hz. split; split; try done; [by intros [_ [?|?]]|by auto].
  - split; split; try done; [by auto|by intros [?|[? _]]].
Qed.

Lemma parseInt_from_acc acc s :
  parseInt_from acc s = acc * 10 ^ Z.of_nat (String.length s) + parseInt_from 0 s.
Proof.
  revert acc. induction s as [|c s IH]; intros acc; simpl String.length; simpl parseInt_from.
  - simpl. lia.
  - rewrite (IH (10 * acc + digit_value c)), (IH (10 * 0 + digit_value c)).
    rewrite Nat2Z.inj_succ, Z.pow_succ_r by lia. lia.
Qed.

Lemma pretty_N_char_digit d :
  (d < 10)%N ->
  digit_value (pretty_N_char d) = Z.of_N d /\ is_digit (pretty_N_char d) = true.
Proof.
  intros Hd.
  assert (d = 0 \/ d = 1 \/ d = 2 \/ d = 3 \/ d = 4 \/ d = 5 \/ d = 6 \/ d = 7 \/
          d = 8 \/ d = 9)%N as Hcases by lia.
  repeat (destruct Hcases as [->|Hcases]; [by vm_compute|]). subst. by vm_compute.
Qed.

Lemma pretty_N_go_parse x s :
  parseInt_from 0 (pretty_N_go x s) =
    Z.of_N x * 10 ^ Z.of_nat (String.length s) + parseInt_from 0 s /\
  every is_digit (pretty_N_go x s) = every is_digit s.
Proof.
  revert s. induction (N.lt_wf_0 x) as [x _ IH]; intros s.
  destruct (decide (0 < x)%N) as [Hx|Hx].
  - rewrite pretty_N_go_step by done.
    destruct (IH (x `div` 10)%N) with (s := String (pretty_N_char (x `mod` 10)) s)
      as [Hparse Hdigits]; [by apply N.div_lt|].
    destruct (pretty_N_char_digit (x `mod` 10)%N) as [Hval Hdig];
      [by apply N.mod_lt|].
    rewrite Hparse, Hdigits. split; [|simpl; by rewrite Hdig].
    simpl String.length. simpl parseInt_from.
    rewrite parseInt_from_acc, Hval.
    rewrite Nat2Z.inj_succ, Z.pow_succ_r by lia.
    rewrite N2Z.inj_div, N2Z.inj_mod.
    pose proof (Z.div_mod (Z.of_N x) 10). nia.
  - assert (x = 0%N) as -> by lia. rewrite pretty_N_go_0. split; [lia|done].
Qed.

(** X20. A validity typed as the decimal numeral of a positive integer up
    to 2^53 is accepted and gives that many minutes: for such a row the
    validity check leaves no error and [handleShorten] computes the expiry
    from that number. (A longer numeral is accepted too, but is read as the
    nearest double.) *)
Theorem decimal_validity_accepted st input j (n : N) :
  (0 < n)%N ->
  (n <= 2 ^ 53)%N ->
  Input.url input <> "" ->
  Input.validity input = pretty n ->
  row_error st Fvalidity input j = None /\
  minutes input = Z.of_N n.
Proof.
  intros Hn Hmax Hurl%truthy_true Hv.
  assert (pretty n = pretty_N_go n "") as Hpretty.
  { unfold pretty, pretty_N. by rewrite decide_False by lia. }
  destruct (pretty_N_go_parse n "") as [Hparse Hdigits].
  cbn [String.length every parseInt_from] in Hparse, Hdigits.
  assert (parseInt_from 0 (Input.validity input) = Z.of_N n) as Hexact.
  { rewrite Hv, Hpretty, Hparse. simpl. lia. }
  assert (parseInt (Input.validity input) = Z.of_N n) as Hval.
  { unfold parseInt. rewrite Hexact. apply round_to_double_small.
    change (2 ^ 53) with (Z.of_N (2 ^ 53)). lia. }
  assert (truthy (Input.validity input) = true) as Htruthy.
  { destruct (Input.validity input); [|done]. simpl in Hexact. lia. }
  unfold row_error, minutes, test_digits. rewrite Hurl, Htruthy, Hval.
  rewrite Hv, Hpretty, Hdigits. cbn [negb orb andb].
  destruct (Z.leb_spec (Z.of_N n) 0); [lia|done].
Qed.
End Browser.

(** ** Examples *)

(** A record that parses to something other than an array is handed on as
    it is: only missing and unparsable records fall back to the empty list. *)
Example getStoredUrls_keeps_parsed_value :
  getStoredUrls (Json (JObj [("a", JNum 1)])) = Returns (JObj [("a", JNum 1)]).
Proof. reflexivity. Qed.

Lemma getStoredUrls_missing_or_malformed_witness :
  getStoredUrls Absent = Returns (JArr []) /\
  getStoredUrls (Garbage "{oops") = Returns (JArr []).
Proof.
  split.
  - apply (proj2 (getStoredUrls_missing_or_malformed Absent)). by left.
  - apply (proj2 (getStoredUrls_missing_or_malformed (Garbage "{oops"))).
    right. by exists "{oops".
Defined.



Lemma resolve_unknown_code_witness :
  RedirectShortUrl [] "missing" Absent = (Absent, NavigateAfter 3000 "/") /\
  RedirectShortUrl_view [] "missing" = ShortUrlNotFound.
Proof.
  apply (resolve_unknown_code [] "missing" Absent).
  intros x Hx. by apply elem_of_nil in Hx.
Defined.

Lemma resolve_ignores_expiry_witness :
  RedirectShortUrl_view [docs_entry] "docs1" = Redirecting /\
  RedirectShortUrl [docs_entry] "docs1" (setStoredUrls [docs_entry]) =
    (setStoredUrls [with_clicks docs_entry 5], SetHref "https://example.com/docs") /\
  stored_entries (fst (RedirectShortUrl [docs_entry] "docs1" (setStoredUrls [docs_entry]))) =
    Some [with_clicks docs_entry 5].
Proof.
  destruct (resolve_ignores_expiry sample_iso [docs_entry] 0 docs_entry 9000000 1801000
              (setStoredUrls [docs_entry])) as (Hview & _ & Hstored & _ & _ & _ & Hfirst).
  - reflexivity.
  - reflexivity.
  - lia.
  - split; [exact Hview|]. split; [|exact Hstored].
    apply Hfirst. intros j x Hj. lia.
Defined.

(** Two rows that leave the code to the generator can draw the same code;
    the second entry, once expired, then resolves to the original URL of the
    first, not to its own. And an expired entry whose count has reached 2^53
    is stored with the same count after the visit. *)
Lemma resolve_ignores_expiry_counterexample :
  exists w' e,
    handleShorten sample_URL_parses sample_origin sample_iso 5000
      (mounted [row "https://a.com" "" ""; row "https://b.com" "" ""] [])
      ["0.abcdef1"; "0.abcdef2"] = Returns (w', []) /\
    shortenedUrls (ui w') !! 1%nat = Some e /\
    expiresAt e = sample_iso 1805000 /\
    1805000 < 9000000 /\
    originalUrl e = "https://b.com" /\
    snd (RedirectShortUrl (shortenedUrls (ui w')) (shortcode e) (localStorage w')) =
      SetHref "https://a.com" /\
    expiresAt worn_entry = sample_iso 1801000 /\
    stored_entries
      (fst (RedirectShortUrl [worn_entry] (shortcode worn_entry) (setStoredUrls [worn_entry]))) =
      Some [worn_entry] /\
    clicks worn_entry + 1 <> clicks worn_entry.
Proof.
  eexists _, _. split; [vm_compute; reflexivity|].
  split; [reflexivity|]. split; [reflexivity|]. split; [lia|].
  split; [reflexivity|]. split; [reflexivity|]. split; [reflexivity|].
  split; [vm_compute; reflexivity|lia].
Qed.

Lemma submitBatch_rejects_whole_batch_witness :
  let w := mounted [row "https://a.com" "" "same1"; row "https://b.com" "" "same1"]
                   [docs_entry] in
  newErrors sample_URL_parses (ui w) !! "shortcode1" = Some "This code is already taken" /\
  handleShorten sample_URL_parses sample_origin sample_iso 5000 w ["0.4fzyo82mvyr"] =
    Returns (rejected sample_URL_parses w, ["0.4fzyo82mvyr"]).
Proof.
  intros w.
  apply (proj2 (submitBatch_rejects_whole_batch sample_URL_parses sample_origin sample_iso
                  5000 w ["0.4fzyo82mvyr"])
           0%nat 1%nat (row "https://a.com" "" "same1") (row "https://b.com" "" "same1")).
  - lia.
  - reflexivity.
  - reflexivity.
  - discriminate.
  - reflexivity.
  - reflexivity.
Defined.

Lemma shortcode_format_error_witness :
  let w := mounted [row "https://a.com" "" "ab"] [] in
  newErrors sample_URL_parses (ui w) !! "shortcode0" = Some "3-10 alphanumeric chars" /\
  handleShorten sample_URL_parses sample_origin sample_iso 5000 w [] =
    Returns (rejected sample_URL_parses w, []).
Proof.
  intros w.
  destruct (proj1 (shortcode_format_error sample_URL_parses sample_origin sample_iso
                     5000 w [])
              0%nat (row "https://a.com" "" "ab")) as [Hiff Hrejected].
  - reflexivity.
  - discriminate.
  - discriminate.
  - assert (~ matches_shortcode_pattern "ab") as Hbad.
    { intros [Hlen _]. simpl in Hlen. lia. }
    split; [by apply Hiff|by apply Hrejected].
Defined.

Lemma created_entries_fields_witness :
  let w := mounted [row "https://example.com" "" ""; row "" "" ""; row "https://a.com" "45" "promo"]
                   [docs_entry] in
  exists w' rest created,
    handleShorten sample_URL_parses sample_origin sample_iso 5000 w
      ["0.docs1x"; "0.4fzyo82mvyr"] = Returns (w', rest) /\
    shortenedUrls (ui w') = (docs_entry :: created)%list /\
    length created = 2%nat.
Proof.
  intros w. eexists _, _.
  assert (newErrors sample_URL_parses (ui w) = ∅) as Hok by (vm_compute; reflexivity).
  assert (handleShorten sample_URL_parses sample_origin sample_iso 5000 w
            ["0.docs1x"; "0.4fzyo82mvyr"] = Returns _) as Hrun by (vm_compute; reflexivity).
  destruct (created_entries_fields sample_URL_parses sample_origin sample_iso 5000 w
              _ _ _ Hok Hrun) as (created & Hlist & Hrows).
  exists created. split; [exact Hrun|]. split; [exact Hlist|].
  apply Forall2_length in Hrows. rewrite <- Hrows. reflexivity.
Defined.

Lemma previous_entries_kept_witness :
  let w := mounted [row "https://example.com" "" "mine1"] [docs_entry; blog_entry] in
  exists w' rest mine,
    handleShorten sample_URL_parses sample_origin sample_iso 5000 w ["0.4fzyo82mvyr"] =
      Returns (w', rest) /\
    shortenedUrls (ui w') = [docs_entry; blog_entry; mine] /\
    stored_entries (localStorage w') = Some [docs_entry; blog_entry; mine].
Proof.
  intros w. eexists _, _.
  assert (handleShorten sample_URL_parses sample_origin sample_iso 5000 w
            ["0.4fzyo82mvyr"] = Returns _) as Hrun by (vm_compute; reflexivity).
  destruct (previous_entries_kept sample_URL_parses sample_origin sample_iso 5000 w
              _ _ _ Hrun) as (created & Hlist & _ & _ & _ & Hsync).
  destruct (Hsync eq_refl) as [Hstored _].
  simpl in Hlist. injection Hlist as Hlist. subst created.
  eexists. split; [exact Hrun|]. split; [reflexivity|exact Hstored].
Defined.

(** From a view that is behind the store, [handleShorten] overwrites the
    store with the view's list: the entry that another tab added is gone and
    the visits counted since are lost. *)
Lemma previous_entries_kept_counterexample :
  stored_entries (localStorage stale_view) = Some [docs_visited; blog_entry] /\
  exists w' mine,
    handleShorten sample_URL_parses sample_origin sample_iso 5000 stale_view [] =
      Returns (w', []) /\
    stored_entries (localStorage w') = Some [docs_entry; mine] /\
    shortcode mine = "mine1" /\
    (blog_entry ∉ [docs_entry; mine]) /\
    (docs_visited ∉ [docs_entry; mine]).
Proof.
  split; [vm_compute; reflexivity|].
  eexists _, _. split; [vm_compute; reflexivity|].
  split; [vm_compute; reflexivity|]. split; [reflexivity|].
  split; intros Hin;
    repeat (apply elem_of_cons in Hin as [Heq|Hin]; [discriminate Heq|]);
    by apply elem_of_nil in Hin.
Qed.

Lemma skipped_row_shortcode_still_reserved_witness :
  let w := mounted [row "" "" "promo"; row "https://a.com" "" "promo"] [] in
  newErrors sample_URL_parses (ui w) !! "shortcode0" = None /\
  newErrors sample_URL_parses (ui w) !! "shortcode1" = Some "This code is already taken" /\
  generateShortCode (ui w) ["0.promo"; "0.4fzyo82mvyr"] = Returns ("4fzyo8", []).
Proof.
  intros w.
  destruct (skipped_row_shortcode_still_reserved sample_URL_parses sample_origin sample_iso
              5000 w 0%nat (row "" "" "promo") eq_refl eq_refl)
    as (Hskipped & _ & Hother & Hgen).
  split; [exact (Hskipped Fshortcode)|]. split.
  - apply (Hother 1%nat (row "https://a.com" "" "promo")); try done.
  - reflexivity.
Defined.

(** Two rows without a code draw independently: equal candidates give two
    entries with one shortcode, so a list of entries can hold a code twice. *)
Example generated_codes_may_collide :
  exists w',
    handleShorten sample_URL_parses sample_origin sample_iso 5000
      (mounted [row "https://a.com" "" ""; row "https://b.com" "" ""] [])
      ["0.abcdef1"; "0.abcdef2"] = Returns (w', []) /\
    map shortcode (shortenedUrls (ui w')) = ["abcdef"; "abcdef"].
Proof. eexists. split; [vm_compute; reflexivity|reflexivity]. Qed.

(** C2. With the draw 0.5, whose base-36 text is [0.i], the generator returns
    the one-character code [i]: not a six-character code, and not even a
    shortcode that [isValidShortcode] accepts. The entry is created and
    stored under that code. *)
Theorem generateShortCode_short_code :
  let w := mounted [row "https://example.com" "" ""] [] in
  generateShortCode (ui w) ["0.i"] = Returns ("i", []) /\
  String.length "i" <> 6%nat /\
  isValidShortcode "i" = false /\
  exists w',
    handleShorten sample_URL_parses sample_origin sample_iso 5000 w ["0.i"] = Returns (w', []) /\
    map shortcode (shortenedUrls (ui w')) = ["i"] /\
    localStorage w' = setStoredUrls (shortenedUrls (ui w')).
Proof.
  intros w. repeat split; [simpl; lia|].
  eexists. split; [vm_compute; reflexivity|]. split; reflexivity.
Qed.

(** ** Examples for the further properties *)

Lemma rejection_is_idempotent_witness :
  let w := mounted [row "https://a.com" "0" ""] [docs_entry] in
  handleShorten sample_URL_parses sample_origin sample_iso 9000
    (rejected sample_URL_parses w) ["0.4fzyo82mvyr"] =
    Returns (rejected sample_URL_parses w, ["0.4fzyo82mvyr"]).
Proof.
  intros w.
  apply (rejection_is_idempotent sample_URL_parses sample_origin sample_iso
           5000 w [] 9000 ["0.4fzyo82mvyr"]).
  intros Hempty. apply (f_equal (fun m => m !! "validity0")) in Hempty.
  vm_compute in Hempty. discriminate.
Defined.

Lemma stored_code_is_taken_witness :
  let w := mounted [row "https://a.com" "" "docs1"] [docs_entry] in
  handleShorten sample_URL_parses sample_origin sample_iso 5000 w [] =
    Returns (rejected sample_URL_parses w, []) /\
  newErrors sample_URL_parses (ui w) !! "shortcode0" = Some "This code is already taken".
Proof.
  intros w.
  destruct (stored_code_is_taken sample_URL_parses sample_origin sample_iso 5000 w []
              0%nat (row "https://a.com" "" "docs1") docs_entry) as [Hrun Htaken].
  - by apply list_elem_of_singleton.
  - reflexivity.
  - discriminate.
  - discriminate.
  - reflexivity.
  - split; [exact Hrun|]. by apply Htaken.
Defined.

Lemma batch_without_urls_is_ignored_witness :
  let w := mounted [row "" "soon" "!!"; row "" "" "docs1"] [docs_entry] in
  exists w',
    handleShorten sample_URL_parses sample_origin sample_iso 5000 w ["0.4fzyo82mvyr"] =
      Returns (w', ["0.4fzyo82mvyr"]) /\
    localStorage w' = setStoredUrls [docs_entry] /\
    shortenedUrls (ui w') = [docs_entry].
Proof.
  intros w.
  destruct (batch_without_urls_is_ignored sample_URL_parses sample_origin sample_iso
              5000 w ["0.4fzyo82mvyr"]) as (w' & Hrun & Hstore & Hlist & _).
  - by repeat constructor.
  - exists w'. by rewrite Hstore, Hlist.
Defined.

Lemma submit_twice_creates_once_witness :
  let w := mounted [row "https://a.com" "" "promo"; row "https://b.com" "" ""] [docs_entry] in
  exists w',
    handleShorten sample_URL_parses sample_origin sample_iso 5000 w ["0.4fzyo82mvyr"] =
      Returns (w', []) /\
    successMessage (ui w') = "2 URL(s) successfully shortened!" /\
    handleShorten sample_URL_parses sample_origin sample_iso 9000 w' ["0.abcdefgh"] =
      Returns (w', ["0.abcdefgh"]).
Proof.
  intros w. eexists.
  assert (handleShorten sample_URL_parses sample_origin sample_iso 5000 w
            ["0.4fzyo82mvyr"] = Returns _) as Hrun by (vm_compute; reflexivity).
  destruct (submit_twice_creates_once sample_URL_parses sample_origin sample_iso
              5000 w _ _ _ 9000 ["0.abcdefgh"] ltac:(vm_compute; reflexivity) Hrun)
    as (_ & _ & Hmsg & _ & Hagain).
  - exists (row "https://a.com" "" "promo"). split; [left|discriminate].
  - split; [exact Hrun|]. split; [exact Hmsg|exact Hagain].
Defined.

Lemma unique_shortcodes_kept_witness :
  let w := mounted [row "https://a.com" "" "promo"; row "https://b.com" "" ""] [docs_entry] in
  exists w',
    handleShorten sample_URL_parses sample_origin sample_iso 5000 w ["0.4fzyo82mvyr"] =
      Returns (w', []) /\
    NoDup (map shortcode (shortenedUrls (ui w'))).
Proof.
  intros w. eexists.
  assert (handleShorten sample_URL_parses sample_origin sample_iso 5000 w
            ["0.4fzyo82mvyr"] = Returns _) as Hrun by (vm_compute; reflexivity).
  split; [exact Hrun|].
  apply (unique_shortcodes_kept sample_URL_parses sample_origin sample_iso 5000 w
           _ _ _ ltac:(apply NoDup_singleton) ltac:(vm_compute; reflexivity) Hrun).
  vm_compute. lia.
Defined.

Lemma custom_code_resolves_witness :
  let w := mounted [row "https://b.com" "" ""; row "https://a.com" "" "promo"] [docs_entry] in
  exists w',
    handleShorten sample_URL_parses sample_origin sample_iso 5000 w ["0.4fzyo82mvyr"] =
      Returns (w', []) /\
    snd (RedirectShortUrl (shortenedUrls (ui w')) "promo" Absent) =
      SetHref "https://a.com".
Proof.
  intros w. eexists.
  assert (handleShorten sample_URL_parses sample_origin sample_iso 5000 w
            ["0.4fzyo82mvyr"] = Returns _) as Hrun by (vm_compute; reflexivity).
  split; [exact Hrun|].
  destruct (custom_code_resolves sample_URL_parses sample_origin sample_iso 5000 w
              _ _ _ 1%nat (row "https://a.com" "" "promo") Absent
              ltac:(vm_compute; reflexivity) Hrun) as [_ Hresolve].
  - reflexivity.
  - discriminate.
  - discriminate.
  - exact (f_equal snd Hresolve).
Defined.

Lemma created_codes_not_empty_witness :
  let w := mounted [row "https://b.com" "" ""] [] in
  exists w' created,
    handleShorten sample_URL_parses sample_origin sample_iso 5000 w ["0"; "0.i"] =
      Returns (w', []) /\
    shortenedUrls (ui w') = created /\
    Forall (fun e => originalUrl e <> "" /\ shortcode e <> "" /\
                     (String.length (shortcode e) <= 10)%nat) created.
Proof.
  intros w. eexists.
  assert (handleShorten sample_URL_parses sample_origin sample_iso 5000 w
            ["0"; "0.i"] = Returns _) as Hrun by (vm_compute; reflexivity).
  destruct (created_codes_not_empty sample_URL_parses sample_origin sample_iso 5000 w
              _ _ _ ltac:(vm_compute; reflexivity) Hrun) as (created & Hlist & Hshape).
  exists created. split; [exact Hrun|]. split; [exact Hlist|exact Hshape].
Defined.

Lemma batch_with_own_codes_returns_witness :
  let w := mounted [row "https://a.com" "45" "promo"; row "" "" ""] [docs_entry] in
  exists w',
    handleShorten sample_URL_parses sample_origin sample_iso 5000 w [] = Returns (w', []) /\
    shortenedUrls (ui w') =
      [docs_entry; entry_of sample_origin sample_iso 5000 (row "https://a.com" "45" "promo")].
Proof.
  intros w.
  destruct (batch_with_own_codes_returns sample_URL_parses sample_origin sample_iso
              5000 w []) as (w' & Hrun & Hlist).
  - vm_compute. reflexivity.
  - repeat constructor; simpl; intros; discriminate || done.
  - repeat constructor; simpl; intros; reflexivity || done.
  - exists w'. split; [exact Hrun|]. rewrite Hlist. reflexivity.
Defined.

Lemma expiry_out_of_range_throws_witness :
  handleShorten sample_URL_parses sample_origin sample_iso 5000
    (mounted [row "https://a.com" "99999999999999999999" "promo"] [docs_entry]) [] =
    Throws RangeError.
Proof.
  apply (expiry_out_of_range_throws sample_URL_parses sample_origin sample_iso 5000
           (mounted [row "https://a.com" "99999999999999999999" "promo"] [docs_entry]) []
           (row "https://a.com" "99999999999999999999" "promo")).
  - vm_compute. reflexivity.
  - lia.
  - by apply list_elem_of_singleton.
  - discriminate.
  - vm_compute. reflexivity.
  - repeat constructor. simpl. intros. discriminate.
Defined.

Lemma typing_changes_one_field_witness :
  exists st',
    handleInputChange 1 "url" "https://a.com"
      (ui (mounted [Input.blank; row "" "15" "promo"] [docs_entry])) = Some st' /\
    inputs st' !! 1%nat = Some (row "https://a.com" "15" "promo") /\
    inputs st' !! 0%nat = Some Input.blank.
Proof.
  destruct (typing_changes_one_field 1 "url" "https://a.com"
              (ui (mounted [Input.blank; row "" "15" "promo"] [docs_entry]))
              (row "" "15" "promo") eq_refl (or_introl eq_refl))
    as (st' & input' & Hrun & Hrow & Hurl & _ & _ & Hothers & _).
  exists st'. split; [exact Hrun|]. split.
  - rewrite Hrow. destruct (Hurl eq_refl) as (Hu & Hv & Hc).
    destruct input'. simpl in *. by subst.
  - by rewrite Hothers.
Defined.

Lemma errors_shown_at_their_fields_witness :
  let w := mounted [row "https://a.com" "" "ab"] [] in
  exists w',
    handleShorten sample_URL_parses sample_origin sample_iso 5000 w [] = Returns (w', []) /\
    field_error (ui w') "shortcode" 0 = true /\
    helperText (ui w') "shortcode" 0 "Optional" = "3-10 alphanumeric chars".
Proof.
  intros w.
  destruct (errors_shown_at_their_fields sample_URL_parses sample_origin sample_iso
              5000 w [] Fshortcode 0 "Optional") as (w' & Hrun & Hflag & Htext).
  - intros Hempty. apply (f_equal (fun m => m !! "shortcode0")) in Hempty.
    vm_compute in Hempty. discriminate.
  - exists w'. split; [exact Hrun|]. split.
    + apply Hflag. by exists (row "https://a.com" "" "ab"), "3-10 alphanumeric chars".
    + exact Htext.
Defined.

Lemma created_link_text_witness :
  let w := mounted [row "https://a.com" "" "promo"] [] in
  exists w' created,
    handleShorten sample_URL_parses sample_origin sample_iso 5000 w [] = Returns (w', []) /\
    shortenedUrls (ui w') = created /\
    Forall (fun e => link_text e = "localhost:3000" +:+ "/" +:+ shortcode e) created.
Proof.
  intros w. eexists.
  assert (handleShorten sample_URL_parses sample_origin sample_iso 5000 w [] = Returns _)
    as Hrun by (vm_compute; reflexivity).
  destruct (created_link_text sample_URL_parses sample_origin sample_iso 5000 w
              _ _ _ "localhost:3000" (or_introl eq_refl)
              ltac:(vm_compute; reflexivity) Hrun) as (created & Hlist & Htext).
  exists created. split; [exact Hrun|]. split; [exact Hlist|exact Htext].
Defined.

Lemma candidate_of_fraction_witness :
  candidate "0.4fzyo82mvyr" = "4fzyo8" /\ isValidShortcode (candidate "0.4fzyo82mvyr") = true.
Proof.
  destruct (candidate_of_fraction "4fzyo82mvyr" eq_refl) as (Hcand & _ & _ & Hvalid).
  split; [exact Hcand|]. apply Hvalid. simpl. lia.
Defined.

Lemma validity_refused_iff_witness :
  row_error sample_URL_parses (ui (mounted [row "https://a.com" "1.5" ""] []))
    Fvalidity (row "https://a.com" "1.5" "") 0 = Some "Must be a positive number".
Proof.
  apply (validity_refused_iff sample_URL_parses
           (ui (mounted [row "https://a.com" "1.5" ""] []))
           (row "https://a.com" "1.5" "") 0).
  - discriminate.
  - split; [discriminate|]. left. reflexivity.
Defined.

Lemma decimal_validity_accepted_witness :
  minutes (row "https://a.com" "45" "") = 45.
Proof.
  apply (decimal_validity_accepted sample_URL_parses
           (ui (mounted [row "https://a.com" "45" ""] []))
           (row "https://a.com" "45" "") 0 45%N).
  - lia.
  - vm_compute. discriminate.
  - discriminate.
  - reflexivity.
Defined.
